(** * Student Productivity API: the text-derivation core of [main.py]

    A shallow embedding of the heuristic functions of [src/main.py]
    ([_extract_text_from_pdf], [_simple_summarize], [_make_exam_notes],
    [_generate_flashcards], [_extract_tasks_and_deadlines]) and of the
    endpoints [upload_resource], [create_text_resource], [summarize],
    [notes], [flashcards], [extract_tasks], [plan] and [doubts], followed
    by the properties the specification states about them and by further
    properties read off the code.

    Conventions of the model.
    - A Python [str] is a [list ascii]; a character is its code point, so the
      model covers texts over U+0000..U+00FF.  On that range [str.lower] is
      character-wise and the whitespace of [str.strip], [str.split] and of
      the regular expression class [\s] is the same set ([isspace]).
    - A Python [int] is a [Z]; [len] is [Z.of_nat (length _)].
    - [int(a / b)] for [a >= 0] and [b > 0] is the integer quotient
      ([int_quot]).
    - A date is a day number and [isoformat] a one-to-one rendering of it;
      the end of the calendar (year 9999) is not modelled.
    - A [for] loop with [break] is a structural recursion over the list it
      walks, the mutated local list being an accumulator.
    - The clock and the document store are explicit state. *)

From Stdlib Require Import Ascii String Numbers.DecimalString.
From Stdlib Require Import List ZArith Lia Bool Sorted.
Import ListNotations.
Open Scope Z_scope.

(** ** Python strings *)

Definition str := list ascii.

(** String literals of the source. *)
Notation "$ s" := (list_ascii_of_string s%string) (at level 1, format "$ s").

Module PyStr.

Definition code (c : ascii) : Z := Z.of_N (N_of_ascii c).

Definition chr (z : Z) : ascii := ascii_of_N (Z.to_N z).

(** [str.isspace] on one character, for code points below 256:
    TAB LF VT FF CR, FS GS RS US, SPACE, NEL and NBSP. *)
Definition isspace (c : ascii) : bool :=
  let n := code c in
  ((9 <=? n) && (n <=? 13)) || ((28 <=? n) && (n <=? 32))
  || (n =? 133) || (n =? 160).

(** [str.lower] on one character: A-Z and the Latin-1 capitals
    U+00C0..U+00DE (but the multiplication sign U+00D7) move by 32. *)
Definition lower_char (c : ascii) : ascii :=
  let n := code c in
  if ((65 <=? n) && (n <=? 90))
     || ((192 <=? n) && (n <=? 222) && negb (n =? 215))
  then chr (n + 32) else c.

Definition lower (s : str) : str := map lower_char s.

Definition eqb (a b : str) : bool :=
  if list_eq_dec ascii_dec a b then true else false.

(** [s.startswith(p)] *)
Fixpoint startswith (p s : str) : bool :=
  match p, s with
  | [], _ => true
  | _ :: _, [] => false
  | a :: p', b :: s' => Ascii.eqb a b && startswith p' s'
  end.

(** [p in s] for strings: [p] occurs in [s] as a substring. *)
Fixpoint contains (p s : str) : bool :=
  startswith p s
  || match s with
     | [] => false
     | _ :: s' => contains p s'
     end.

(** [w in ws] for a list of strings. *)
Definition mem (w : str) (ws : list str) : bool := existsb (eqb w) ws.

(** [ws.index(w)]; [None] stands for the [ValueError]. *)
Fixpoint index (w : str) (ws : list str) : option nat :=
  match ws with
  | [] => None
  | x :: r => if eqb x w then Some O
              else option_map S (index w r)
  end.

Fixpoint dropwhile (p : ascii -> bool) (s : str) : str :=
  match s with
  | [] => []
  | c :: r => if p c then dropwhile p r else s
  end.

Definition lstrip_by (p : ascii -> bool) (s : str) : str := dropwhile p s.

Definition rstrip_by (p : ascii -> bool) (s : str) : str :=
  rev (dropwhile p (rev s)).

(** [s.strip(chars)], the set [chars] given as a predicate. *)
Definition strip_by (p : ascii -> bool) (s : str) : str :=
  rstrip_by p (lstrip_by p s).

(** [s.strip()] *)
Definition strip (s : str) : str := strip_by isspace s.

Definition in_chars (chars : str) (c : ascii) : bool :=
  existsb (Ascii.eqb c) chars.

(** [sep.join(ws)] *)
Fixpoint join (sep : str) (ws : list str) : str :=
  match ws with
  | [] => []
  | [w] => w
  | w :: r => w ++ sep ++ join sep r
  end.

(** [l[:n]]: a negative bound counts from the end. *)
Definition upto {A} (n : Z) (l : list A) : list A :=
  if 0 <=? n then firstn (Z.to_nat n) l
  else firstn (Z.to_nat (Z.of_nat (length l) + n)) l.

Definition len {A} (l : list A) : Z := Z.of_nat (length l).

(** [int(a / b)] for [a >= 0] and [b > 0]: the float quotient cut to an
    integer, which is the integer quotient as long as [a] stays below
    2^52, far above the length of any list in memory. *)
Definition int_quot (a b : Z) : Z := a / b.

(** [s.split()]: the maximal runs of non-whitespace characters.
    [cur] is the word being read, reversed, when [inw] holds. *)
Fixpoint split_go (s : str) (cur : str) (inw : bool) : list str :=
  match s with
  | [] => if inw then [rev cur] else []
  | c :: r =>
      if isspace c
      then (if inw then rev cur :: split_go r [] false
            else split_go r [] false)
      else split_go r (c :: cur) true
  end.

Definition split (s : str) : list str := split_go s [] false.

(** The line boundaries of [str.splitlines] below U+0100, CR and LF
    apart: VT, FF, FS, GS, RS and NEL. *)
Definition is_linebreak (c : ascii) : bool :=
  let n := code c in
  (n =? 11) || (n =? 12) || ((28 <=? n) && (n <=? 30)) || (n =? 133).

(** [s.splitlines()]: CR LF is one boundary, and no empty line is
    reported after the last boundary.  [cur] is the line being read,
    reversed; [cr] tells whether the previous character is a CR. *)
Fixpoint splitlines_go (s : str) (cur : str) (cr : bool) : list str :=
  match s with
  | [] => match cur with [] => [] | _ => [rev cur] end
  | c :: r =>
      if code c =? 13 then rev cur :: splitlines_go r [] true
      else if code c =? 10 then
        (if cr then splitlines_go r [] false
         else rev cur :: splitlines_go r [] false)
      else if is_linebreak c then rev cur :: splitlines_go r [] false
      else splitlines_go r (c :: cur) false
  end.

Definition splitlines (s : str) : list str := splitlines_go s [] false.

(** Truth value of a string: [s] is true when it is not empty. *)
Definition truthy (s : str) : bool :=
  match s with [] => false | _ :: _ => true end.

(** [any(k in s for k in ks)] *)
Definition any_in (ks : list str) (s : str) : bool :=
  existsb (fun k => contains k s) ks.

(** [str(n)] for a non-negative integer. *)
Definition str_of_nat (n : nat) : str :=
  list_ascii_of_string (NilEmpty.string_of_uint (Nat.to_uint n)).

End PyStr.

(** ** The regular expressions of the source *)

Module Re.
Import PyStr.

Definition is_stop (c : ascii) : bool :=
  in_chars $".!?" c.

(** [re.split(r"(?<=[.!?])\s+", s)].  A match is a maximal run of
    whitespace that directly follows one of [.], [!], [?]; the pieces
    between the matches are returned, an empty last piece included.
    [cur] is the piece being read, reversed; [stop] tells whether the
    previous character is a stop; [insep] whether a match is being read. *)
Fixpoint split_sentences_go (s : str) (cur : str) (stop insep : bool)
  : list str :=
  match s with
  | [] => [rev cur]
  | c :: r =>
      if insep then
        if isspace c then split_sentences_go r [] false true
        else split_sentences_go r [c] (is_stop c) false
      else if isspace c && stop then
        rev cur :: split_sentences_go r [] false true
      else split_sentences_go r (c :: cur) (is_stop c) false
  end.

Definition split_sentences (s : str) : list str :=
  split_sentences_go s [] false false.

Definition is_nl (c : ascii) : bool := Ascii.eqb c "010"%char.

(** [re.split(r"\n+", s)]: the pieces between maximal runs of LF. *)
Fixpoint split_newlines_go (s : str) (cur : str) (insep : bool)
  : list str :=
  match s with
  | [] => [rev cur]
  | c :: r =>
      if is_nl c then
        if insep then split_newlines_go r [] true
        else rev cur :: split_newlines_go r [] true
      else split_newlines_go r (c :: cur) false
  end.

Definition split_newlines (s : str) : list str :=
  split_newlines_go s [] false.

End Re.

Import PyStr.

(** ** [_simple_summarize] *)

Record SummaryResult := {
  content : str;
  key_points : list str;
  reading_time_min : Z
}.

Definition summary_keywords : list str :=
  [$"important"; $"key"; $"therefore"; $"defines"; $"theorem"; $"proof";
   $"exam"; $"result"; $"conclusion"].

(** The first loop: sentences with a keyword, until [max_sentences]. *)
Fixpoint keyword_pass (sentences kp : list str) (max_sentences : Z)
  : list str :=
  match sentences with
  | [] => kp
  | s :: rest =>
      if len kp >=? max_sentences then kp
      else if any_in summary_keywords (lower s)
           then keyword_pass rest (kp ++ [s]) max_sentences
           else keyword_pass rest kp max_sentences
  end.

(** The second loop: the sentences not chosen yet, in order. *)
Fixpoint fill_pass (sentences kp : list str) (max_sentences : Z)
  : list str :=
  match sentences with
  | [] => kp
  | s :: rest =>
      let kp' := if negb (mem s kp) then kp ++ [s] else kp in
      if len kp' >=? max_sentences then kp'
      else fill_pass rest kp' max_sentences
  end.

Definition shorten_point (p : str) : str :=
  if len p <=? 200 then p else upto 197 p ++ $"...".

Definition _simple_summarize (text : str) (max_sentences : Z)
  : SummaryResult :=
  let sentences := Re.split_sentences (strip text) in
  let sentences :=
    map strip (filter (fun s => truthy (strip s)) sentences) in
  let kp := keyword_pass sentences [] max_sentences in
  let kp := if len kp <? max_sentences
            then fill_pass sentences kp max_sentences else kp in
  {| content := join $" " (upto max_sentences kp);
     key_points := map shorten_point (upto max_sentences kp);
     reading_time_min := Z.max 1 (int_quot (len (split text)) 180) |}.

(** ** [_make_exam_notes] *)

Definition note_markers : list str :=
  [$"definition"; $"formula"; $"step"; $"theorem"; $"law"; $"property";
   $"example:"].

(** The characters of [line.strip(" -*\t")] that a text of the model can
    hold: space, hyphen and TAB (the bullet U+2022 lies above U+00FF). *)
Definition bullet_chars (c : ascii) : bool :=
  in_chars [" "%char; "-"%char; "009"%char] c.

Fixpoint notes_loop (lines bullets : list str) (max_points : Z)
  : list str :=
  match lines with
  | [] => bullets
  | raw :: rest =>
      let line := strip_by bullet_chars raw in
      if negb (truthy line) then notes_loop rest bullets max_points
      else
        let bullets' :=
          if any_in note_markers (lower line) then bullets ++ [line]
          else if len (split line) <=? 12 then bullets ++ [line]
          else bullets in
        if len bullets' >=? max_points then bullets'
        else notes_loop rest bullets' max_points
  end.

Definition shorten_bullet (b : str) : str :=
  upto 180 b ++ (if len b >? 180 then $"..." else $"").

Definition _make_exam_notes (text : str) (max_points : Z) : list str :=
  let lines := Re.split_newlines text in
  let bullets := notes_loop lines [] max_points in
  let bullets :=
    match bullets with
    | [] => upto max_points (Re.split_sentences text)
    | _ :: _ => bullets
    end in
  map shorten_bullet bullets.

(** ** [_generate_flashcards] *)

Record Card := { question : str; answer : str }.

(** The body of the [try] for one sentence: [None] is an exception (the
    [continue] of the handler), [Some cs] the cards to append. *)
Definition cards_of_sentence (s : str) : option (list Card) :=
  let words := split s in
  if (len words >=? 6) && (mem $"is" words || mem $"are" words) then
    match (if mem $"is" words then index $"is" words
           else index $"are" words) with
    | None => None
    | Some idx =>
        let subject :=
          strip_by (in_chars $", .") (join $" " (firstn idx words)) in
        let description := strip (join $" " (skipn (S idx) words)) in
        if truthy subject && truthy description then
          Some [ {| question := upto 180 ($"What is " ++ subject ++ $"?");
                    answer := upto 300 description |} ]
        else Some []
    end
  else Some [].

Fixpoint cards_loop (sentences : list str) (cards : list Card) (n : Z)
  : list Card :=
  match sentences with
  | [] => cards
  | s :: rest =>
      match cards_of_sentence s with
      | None => cards_loop rest cards n
      | Some cs =>
          let cards' := cards ++ cs in
          if len cards' >=? n then cards' else cards_loop rest cards' n
      end
  end.

Definition filler_card (i : nat) : Card :=
  {| question := $"Key point " ++ str_of_nat (i + 1) ++ $"?";
     answer := $"Review your notes for this topic." |}.

Definition _generate_flashcards (text : str) (n : Z) : list Card :=
  let sentences := Re.split_sentences text in
  let cards := cards_loop sentences [] n in
  let cards :=
    if len cards <? n
    then cards ++ map filler_card (seq 0 (Z.to_nat (n - len cards)))
    else cards in
  upto n cards.

(** ** [_extract_tasks_and_deadlines] *)

(** A [datetime]: microseconds on the time line, naive or with a time
    zone. *)
Inductive datetime :=
| Naive (us : Z)
| Aware (us : Z).

Definition us_of (d : datetime) : Z :=
  match d with Naive us | Aware us => us end.

(** [a < b]; [None] is the [TypeError] of comparing a naive with an aware
    value. *)
Definition dt_lt (a b : datetime) : option bool :=
  match a, b with
  | Naive x, Naive y | Aware x, Aware y => Some (x <? y)
  | _, _ => None
  end.

(** [timedelta(days=1)] *)
Definition one_day : Z := 86400000000.

Inductive outcome (A : Type) :=
| Raises
| Returns (a : A).
Arguments Raises {A}.
Arguments Returns {A} a.

(** The collaborators the extractor calls: [dateutil]'s parser and the
    clock.  [dateparser_parse l d] is [dateparser.parse(l, fuzzy=True,
    default=d)]; [now k] is the value of the [k]-th call of
    [datetime.now()], a naive datetime. *)
Class World := {
  dateparser_parse : str -> datetime -> outcome datetime;
  now : nat -> Z
}.

Record TaskDict := {
  t_title : str;
  t_due_date : option datetime;
  t_status : str;
  t_priority : str
}.

Definition action_verbs : list str :=
  [$"submit"; $"finish"; $"complete"; $"read"; $"solve"; $"revise";
   $"review"; $"write"; $"prepare"].

Definition exam_words : list str := [$"exam"; $"midterm"; $"final"].

(** The [try] block on the stripped line [l], the clock having been read
    [k] times: the due date kept and the number of readings after it. *)
Definition parse_due `{World} (l : str) (k : nat)
  : option datetime * nat :=
  match dateparser_parse l (Naive (now k)) with
  | Raises => (None, S k)
  | Returns due =>
      match dt_lt due (Naive (now (S k) - one_day)) with
      | None => (None, S (S k))
      | Some true => (None, S (S k))
      | Some false => (Some due, S (S k))
      end
  end.

(** The task appended for a matching stripped line [l]. *)
Definition task_of_line `{World} (l : str) (k : nat) : TaskDict * nat :=
  let lower := lower l in
  let (due, k') := parse_due l k in
  ({| t_title := upto 120 l;
      t_due_date := due;
      t_status := $"todo";
      t_priority := if any_in exam_words lower then $"high"
                    else $"medium" |}, k').

Fixpoint extract_loop `{World} (lines : list str) (tasks : list TaskDict)
  (k : nat) : list TaskDict * nat :=
  match lines with
  | [] => (tasks, k)
  | line :: rest =>
      let l := strip line in
      if negb (truthy l) then extract_loop rest tasks k
      else if any_in action_verbs (lower l) then
        let (t, k') := task_of_line l k in
        extract_loop rest (tasks ++ [t]) k'
      else extract_loop rest tasks k
  end.

Definition _extract_tasks_and_deadlines `{World} (text : str) (k : nat)
  : list TaskDict * nat :=
  extract_loop (splitlines text) [] k.

(** ** Records of [schemas.py] and the document store *)

Record Note := {
  note_title : str;
  note_resource_id : option str;
  note_bullets : list str
}.

Record Flashcard := {
  fc_resource_id : option str;
  fc_question : str;
  fc_answer : str;
  fc_topic : option str
}.

(** A task of a study plan; the due date is a day number, of which
    [isoformat] is a one-to-one rendering. *)
Record PlanTask := {
  pt_title : str;
  pt_due_date : Z;
  pt_status : str;
  pt_priority : str
}.

Record StudyPlan := {
  sp_title : str;
  sp_objectives : list str;
  sp_tasks : list PlanTask;
  sp_timeframe_days : Z
}.

Record Doubt := {
  d_question : str;
  d_context : option str;
  d_explanation_steps : list str;
  d_final_answer : option str
}.

Inductive Document :=
| DocNote (n : Note)
| DocFlashcard (f : Flashcard)
| DocStudyPlan (p : StudyPlan)
| DocDoubt (d : Doubt).

(** The store: the records created so far, oldest first, each with the
    name of its collection. *)
Definition Store := list (str * Document).

(** Modelled from the spec: [database.create_document] is imported by
    [main.py] and its module is not among the sources.  After section 6,
    [create(collection_name, record) -> id]: one record is added to the
    collection and an identifier is returned; the identifier is taken to
    be the number of records created before. *)
Definition create_document (collection : str) (doc : Document)
  : Store -> str * Store :=
  fun st => (str_of_nat (length st), st ++ [(collection, doc)]).

(** State passing over the store. *)
Definition M (A : Type) : Type := Store -> A * Store.

Definition ret {A} (a : A) : M A := fun st => (a, st).

Definition bind {A B} (m : M A) (f : A -> M B) : M B :=
  fun st => let (a, st') := m st in f a st'.

Notation "x <- m ;; k" := (bind m (fun x => k))
  (at level 61, m at next level, right associativity).

(** ** Request models *)

Record GenerateIn := {
  g_resource_id : option str;
  g_text : option str;
  g_count : option Z
}.

(** [PlanIn]; [daily_hours], a float no code reads, is left out. *)
Record PlanIn := {
  p_title : str;
  p_objectives : list str;
  p_days : Z
}.

Record DoubtIn := {
  q_question : str;
  q_context : option str
}.

(** [x or d] for an optional string and for an optional integer. *)
Definition str_or (x : option str) (d : str) : str :=
  match x with
  | Some s => if truthy s then s else d
  | None => d
  end.

Definition int_or (x : option Z) (d : Z) : Z :=
  match x with
  | Some n => if n =? 0 then d else n
  | None => d
  end.

(** ** Endpoint [notes] *)

Record NotesResponse := { note_id : str; nr_bullets : list str }.

Definition notes (payload : GenerateIn) : M NotesResponse :=
  let text := str_or (g_text payload) $"" in
  let bullets := _make_exam_notes text 10 in
  let note := {| note_title := $"Exam-focused Notes";
                 note_resource_id := g_resource_id payload;
                 note_bullets := bullets |} in
  nid <- create_document $"note" (DocNote note) ;;
  ret {| note_id := nid; nr_bullets := bullets |}.

(** ** Endpoint [flashcards] *)

Record FlashcardsResponse := {
  fr_count : Z;
  fr_cards : list Card;
  fr_ids : list str
}.

Fixpoint create_cards (rid : option str) (cards : list Card)
  (created_ids : list str) : M (list str) :=
  match cards with
  | [] => ret created_ids
  | c :: rest =>
      let fc := {| fc_resource_id := rid; fc_question := question c;
                   fc_answer := answer c; fc_topic := None |} in
      cid <- create_document $"flashcard" (DocFlashcard fc) ;;
      create_cards rid rest (created_ids ++ [cid])
  end.

Definition flashcards (payload : GenerateIn) : M FlashcardsResponse :=
  let text := str_or (g_text payload) $"" in
  let cards := _generate_flashcards text (int_or (g_count payload) 8) in
  created_ids <- create_cards (g_resource_id payload) cards [] ;;
  ret {| fr_count := len cards; fr_cards := cards; fr_ids := created_ids |}.

(** ** Endpoint [plan] *)

Record PlanResponse := {
  plan_id : str;
  pr_tasks : list PlanTask;
  pr_days : Z
}.

(** The loop over [enumerate(payload.objectives)]; [start] is the day
    number of [datetime.now().date()]. *)
Fixpoint plan_loop (start days per_day : Z) (objectives : list str)
  (i day_pointer : Z) (tasks : list PlanTask) : list PlanTask :=
  match objectives with
  | [] => tasks
  | obj :: rest =>
      let due := start + Z.min day_pointer (days - 1) in
      let tasks' := tasks ++ [ {| pt_title := obj; pt_due_date := due;
                                  pt_status := $"todo";
                                  pt_priority := $"medium" |} ] in
      let day_pointer' :=
        if (i + 1) mod per_day =? 0 then day_pointer + 1
        else day_pointer in
      plan_loop start days per_day rest (i + 1) day_pointer' tasks'
  end.

Definition default_objectives : list str :=
  [$"Review notes"; $"Practice problems"; $"Revise key formulas"].

Definition plan (payload : PlanIn) (start : Z) : M PlanResponse :=
  let objectives :=
    match p_objectives payload with
    | [] => default_objectives
    | _ :: _ => p_objectives payload
    end in
  let days := p_days payload in
  let per_day := Z.max 1 (int_quot (len objectives) (Z.max 1 days)) in
  let tasks := plan_loop start days per_day objectives 0 0 [] in
  let plan_doc := {| sp_title := p_title payload;
                     sp_objectives := objectives;
                     sp_tasks := tasks;
                     sp_timeframe_days := days |} in
  pid <- create_document $"studyplan" (DocStudyPlan plan_doc) ;;
  ret {| plan_id := pid; pr_tasks := tasks; pr_days := days |}.

(** ** Endpoint [doubts] *)

Record DoubtResponse := {
  doubt_id : str;
  dr_steps : list str;
  dr_final_answer : str
}.

Definition disclaimer : str :=
  $"This is a heuristic explanation. For precise solutions, consult course materials.".

Definition context_prefix : str := $"Understand the context: ".

Definition restate_prefix : str := $"Restate the question: ".

Definition doubts (payload : DoubtIn) : M DoubtResponse :=
  let steps : list str := [] in
  let q := strip (q_question payload) in
  let steps :=
    match q_context payload with
    | Some c => if truthy c then steps ++ [context_prefix ++ upto 200 c]
                else steps
    | None => steps
    end in
  let steps := steps ++ [restate_prefix ++ q] in
  let steps := steps ++ [$"Identify knowns and unknowns"] in
  let steps := steps ++ [$"Break into sub-problems and solve step-by-step"] in
  let steps :=
    steps ++ [$"Verify the result with a quick check or example"] in
  let final := disclaimer in
  let doc := {| d_question := q; d_context := q_context payload;
                d_explanation_steps := steps;
                d_final_answer := Some final |} in
  did <- create_document $"doubt" (DocDoubt doc) ;;
  ret {| doubt_id := did; dr_steps := steps; dr_final_answer := final |}.

(** ** The wider store: every record of [schemas.py] *)

Record StudentResource := {
  sr_title : str;
  sr_type : str;
  sr_source_name : option str;
  sr_content_text : option str;
  sr_metadata : list (str * Z)
}.

Record Summary := {
  sm_title : str;
  sm_resource_id : option str;
  sm_content : str;
  sm_key_points : list str;
  sm_reading_time_min : option Z
}.

Record StudyTask := {
  st_title : str;
  st_due_date : option datetime;
  st_course : option str;
  st_source : option str;
  st_status : str;
  st_priority : str
}.

Module Db.

(** A record of any collection: those of [Document] and the three that
    the ingestion, summarize and extraction endpoints create. *)
Inductive AnyDocument :=
| Core (d : Document)
| DocStudentResource (r : StudentResource)
| DocSummary (s : Summary)
| DocStudyTask (t : StudyTask).

(** The records created so far, oldest first, with their collections. *)
Definition St := list (str * AnyDocument).

(** Modelled from the spec: [database.create_document], whose module is
    not among the sources, here for the records of every collection.
    After section 6, [create(collection_name, record) -> id]; as in
    [create_document] above the identifier is the number of records
    created before. *)
Definition create_document (collection : str) (doc : AnyDocument)
  : St -> str * St :=
  fun st => (str_of_nat (length st), st ++ [(collection, doc)]).

End Db.

(** ** [_extract_text_from_pdf] *)

(** What [page.extract_text()] does for one page: it raises, or returns a
    text or [None]. *)
Definition Page := outcome (option str).

(** [PyPDF2]: [PdfReader data] is [PdfReader(io.BytesIO(data)).pages],
    which raises or gives the pages in order. *)
Class PdfLib := {
  PdfReader : list Byte.byte -> outcome (list Page)
}.

(** The loop over [reader.pages]: a page that raises is skipped. *)
Fixpoint pages_loop (pages : list Page) (text_parts : list str)
  : list str :=
  match pages with
  | [] => text_parts
  | page :: rest =>
      match page with
      | Raises => pages_loop rest text_parts
      | Returns t => pages_loop rest (text_parts ++ [str_or t $""])
      end
  end.

Definition newline : str := ["010"%char].

Definition _extract_text_from_pdf `{PdfLib} (file_bytes : list Byte.byte)
  : str :=
  match PdfReader file_bytes with
  | Raises => $""
  | Returns pages => strip (join newline (pages_loop pages []))
  end.

(** ** Endpoints [upload_resource] and [create_text_resource] *)

(** [s.endswith(suffix)] *)
Definition endswith (suffix s : str) : bool :=
  startswith (rev suffix) (rev s).

Record UploadResponse := {
  ur_resource_id : str;
  ur_detected_type : str;
  ur_chars : Z
}.

Definition image_extensions : list str := [$".png"; $".jpg"; $".jpeg"].

(** [rtype] and [content_text] after the test of the file name. *)
Definition detect `{PdfLib} (filename : str) (data : list Byte.byte)
  : str * str :=
  let content_text := $"" in
  let rtype := $"unknown" in
  if endswith $".pdf" (lower filename) then
    ($"pdf", _extract_text_from_pdf data)
  else if existsb (fun ext => endswith ext (lower filename))
            image_extensions then
    ($"image", $"")
  else ($"binary", content_text).

(** [file] is given by its name and its bytes. *)
Definition upload_resource `{PdfLib} (filename : str)
  (data : list Byte.byte) (title : option str) (st : Db.St)
  : UploadResponse * Db.St :=
  let (rtype, content_text) := detect filename data in
  let doc := {| sr_title := str_or title filename;
                sr_type := rtype;
                sr_source_name := Some filename;
                sr_content_text := Some content_text;
                sr_metadata := [($"size", len data)] |} in
  let (rid, st') :=
    Db.create_document $"studentresource" (Db.DocStudentResource doc) st in
  ({| ur_resource_id := rid; ur_detected_type := rtype;
      ur_chars := len content_text |}, st').

Record TextIn := { ti_title : str; ti_text : str }.

Record TextResponse := { tr_resource_id : str; tr_chars : Z }.

Definition create_text_resource (payload : TextIn) (st : Db.St)
  : TextResponse * Db.St :=
  let doc := {| sr_title := ti_title payload;
                sr_type := $"text";
                sr_source_name := None;
                sr_content_text := Some (ti_text payload);
                sr_metadata := [] |} in
  let (rid, st') :=
    Db.create_document $"studentresource" (Db.DocStudentResource doc) st in
  ({| tr_resource_id := rid; tr_chars := len (ti_text payload) |}, st').

(** ** Endpoint [summarize] *)

(** A stored resource as [summarize] reads it: [str(it.get("_id"))] and
    [it.get("content_text", "")], [None] being a stored null. *)
Record Item := {
  it_id : str;
  it_content_text : option str
}.

(** The two queries of [summarize] on the collection [studentresource]:
    the one whose filter asks for a null [_id], and the one without
    filter. *)
Inductive Query :=
| IdIsNone
| Everything.

(** [database.get_documents], whose module is not among the sources: the
    records a query finds in the store. *)
Class Reader := {
  get_documents : str -> Query -> Db.St -> list Item
}.

(** The [for] loop of the scan: the text of the first record whose
    identifier is [rid], else [text] as it was. *)
Fixpoint scan_items (items : list Item) (rid : str) (text : option str)
  : option str :=
  match items with
  | [] => text
  | it :: rest =>
      if eqb (it_id it) rid then it_content_text it
      else scan_items rest rid text
  end.

(** Truth value of an optional string. *)
Definition truthy_opt (x : option str) : bool :=
  match x with
  | Some s => truthy s
  | None => false
  end.

(** The text that [summarize] works on. *)
Definition resolve_text `{Reader} (payload : GenerateIn) (st : Db.St)
  : str :=
  let text := g_text payload in
  let text :=
    match g_resource_id payload with
    | Some rid =>
        if negb (truthy_opt text) && truthy rid then
          match get_documents $"studentresource" IdIsNone st with
          | [] =>
              scan_items (get_documents $"studentresource" Everything st)
                rid text
          | first :: _ => it_content_text first
          end
        else text
    | None => text
    end in
  str_or text $"".

Record SummarizeResponse := {
  summary_id : str;
  sz_result : SummaryResult
}.

Definition summarize `{Reader} (payload : GenerateIn) (st : Db.St)
  : SummarizeResponse * Db.St :=
  let text := resolve_text payload st in
  let result := _simple_summarize text 5 in
  let summ := {| sm_title := $"Summary";
                 sm_resource_id := g_resource_id payload;
                 sm_content := content result;
                 sm_key_points := key_points result;
                 sm_reading_time_min := Some (reading_time_min result) |} in
  let (sid, st') := Db.create_document $"summary" (Db.DocSummary summ) st in
  ({| summary_id := sid; sz_result := result |}, st').

(** ** Endpoint [extract_tasks] *)

(** [dateparser.parse(d.isoformat())]: the strict parse of the ISO text
    of a date that the extractor kept. *)
Class IsoParser := {
  parse_iso : datetime -> outcome datetime
}.

(** A task of the response: the extracted task and the [id] added to it. *)
Record CreatedTask := {
  ct_task : TaskDict;
  ct_id : str
}.

(** The loop over the extracted tasks; a parse that raises ends the
    request, the records created before staying in the store. *)
Fixpoint create_tasks `{IsoParser} (tasks : list TaskDict)
  (created : list CreatedTask) (st : Db.St)
  : outcome (list CreatedTask) * Db.St :=
  match tasks with
  | [] => (Returns created, st)
  | t :: rest =>
      let due :=
        match t_due_date t with
        | Some d => match parse_iso d with
                    | Raises => Raises
                    | Returns d' => Returns (Some d')
                    end
        | None => Returns None
        end in
      match due with
      | Raises => (Raises, st)
      | Returns due_date =>
          let task := {| st_title := t_title t;
                         st_due_date := due_date;
                         st_course := None;
                         st_source := Some $"extracted";
                         st_status := $"todo";
                         st_priority := t_priority t |} in
          let (tid, st') :=
            Db.create_document $"studytask" (Db.DocStudyTask task) st in
          create_tasks rest (created ++ [ {| ct_task := t; ct_id := tid |} ])
            st'
      end
  end.

(** The clock has been read [k] times when the request comes in. *)
Definition extract_tasks `{World} `{IsoParser} (payload : GenerateIn)
  (k : nat) (st : Db.St) : outcome (list CreatedTask) * Db.St * nat :=
  let text := str_or (g_text payload) $"" in
  let (tasks, k') := _extract_tasks_and_deadlines text k in
  (create_tasks tasks [] st, k').

(** ** Notions of the specification *)

(** The number of words of a text, as the specification counts them: a
    word begins at each character that is not whitespace and that starts
    the text or follows a whitespace character. *)
Fixpoint count_words (s : str) (boundary : bool) : nat :=
  match s with
  | [] => O
  | c :: r =>
      if isspace c then count_words r true
      else ((if boundary then 1 else 0) + count_words r false)%nat
  end.

Definition word_count (s : str) : Z := Z.of_nat (count_words s true).

(** A card of the generator is well formed when neither side is empty. *)
Definition card_ok (c : Card) : Prop := question c <> [] /\ answer c <> [].

(** A line of 181 letters: one word, one character over the cut of
    [_make_exam_notes]. *)
Definition long_line : str := repeat "a"%char 181.

(** The record that the flashcards endpoint creates for a card. *)
Definition flashcard_doc (rid : option str) (c : Card) : str * Document :=
  ($"flashcard",
   DocFlashcard {| fc_resource_id := rid; fc_question := question c;
                   fc_answer := answer c; fc_topic := None |}).

(** A line is blank when it holds whitespace only. *)
Definition blank (line : str) : bool := forallb isspace line.

(** A line of the text is an action line when it is not blank and holds
    one of the action verbs, whatever the case of its letters. *)
Definition action_line (line : str) : bool :=
  negb (blank line) && any_in action_verbs (lower line).

(** A line mentions an exam when it holds one of [exam_words], whatever
    the case of its letters. *)
Definition mentions_exam (line : str) : bool :=
  any_in exam_words (lower line).

(** The first and the last character of a needle are not whitespace. *)
Definition solid (v : str) : bool :=
  match v with
  | [] => false
  | c :: _ => negb (isspace c) && negb (isspace (last v c))
  end.

(** A world whose parser finds no date and whose clock stands still. *)
Definition silent_world : World :=
  {| dateparser_parse := fun _ _ => Raises; now := fun _ => 0 |}.

(** A world whose parser reads every line as the instant 0, two days
    before the clock's constant reading. *)
Definition stale_world : World :=
  {| dateparser_parse := fun _ _ => Returns (Naive 0);
     now := fun _ => 2 * one_day |}.

(** A world whose parser reads every line as the clock's reading. *)
Definition fresh_world : World :=
  {| dateparser_parse := fun _ d => Returns d; now := fun _ => 2 * one_day |}.

(** The date of the stripped line [l] is rejected at the [j]-th reading of
    the clock: the parser fails, or it returns a date more than one day
    before the next reading. *)
Definition date_rejected `{World} (l : str) (j : nat) : Prop :=
  dateparser_parse l (Naive (now j)) = Raises
  \/ exists due, dateparser_parse l (Naive (now j)) = Returns due
                 /\ us_of due < now (S j) - one_day.

(** The sentences the summarizer chooses from: the pieces of the stripped
    text, stripped, the empty ones left out. *)
Definition sentences_of (text : str) : list str :=
  map strip
    (filter (fun s => truthy (strip s)) (Re.split_sentences (strip text))).

(** A sentence holds one of the keywords of the summarizer, whatever the
    case of its letters. *)
Definition has_keyword (s : str) : bool :=
  any_in summary_keywords (lower s).

(** The objectives a plan is built from: those of the request, or the
    three defaults when the request has none. *)
Definition effective_objectives (payload : PlanIn) : list str :=
  match p_objectives payload with
  | [] => default_objectives
  | _ :: _ => p_objectives payload
  end.

(** The number of objectives the plan puts on one day. *)
Definition per_day_of (payload : PlanIn) : Z :=
  Z.max 1 (int_quot (len (effective_objectives payload))
             (Z.max 1 (p_days payload))).

(** A page whose text is read without an error. *)
Definition page_text (page : Page) : list str :=
  match page with
  | Raises => []
  | Returns t => [str_or t $""]
  end.

(** A reader that finds two pages in every file, the first of which
    cannot be read. *)
Definition two_pages : PdfLib :=
  {| PdfReader := fun _ => Returns [Raises; Returns (Some $" Ohm's law ")] |}.

(** A database that finds nothing. *)
Definition empty_reader : Reader :=
  {| get_documents := fun _ _ _ => [] |}.

(** A database with two resources, "7" and "8", and no record of a null
    identifier. *)
Definition two_resources : Reader :=
  {| get_documents := fun _ q _ =>
       match q with
       | IdIsNone => []
       | Everything =>
           [ {| it_id := $"7"; it_content_text := Some $"Seven." |};
             {| it_id := $"8"; it_content_text := Some $"The key is eight." |} ]
       end |}.

(** A strict parser that reads every ISO text back. *)
Definition exact_iso : IsoParser :=
  {| parse_iso := fun d => Returns d |}.

(** A card made from a sentence: the question begins with "What is " and
    has at most 180 characters, the answer has between 1 and 300. *)
Definition sentence_card (c : Card) : Prop :=
  startswith $"What is " (question c) = true
  /\ len (question c) <= 180
  /\ 1 <= len (answer c) <= 300.

(** The strict parse of the due date of an extracted task, as
    [extract_tasks] asks for it: nothing to parse when the date is
    absent. *)
Definition reparse `{IsoParser} (t : TaskDict)
  : outcome (option datetime) :=
  match t_due_date t with
  | Some d => match parse_iso d with
              | Raises => Raises
              | Returns d' => Returns (Some d')
              end
  | None => Returns None
  end.

(** The record that [extract_tasks] creates for an extracted task whose
    due date parses to [due]. *)
Definition study_record (t : TaskDict) (due : option datetime)
  : str * Db.AnyDocument :=
  ($"studytask",
   Db.DocStudyTask {| st_title := t_title t;
                      st_due_date := due;
                      st_course := None;
                      st_source := Some $"extracted";
                      st_status := $"todo";
                      st_priority := t_priority t |}).

(** A world whose clock advances by one day at each reading and whose
    parser reads every line as the clock's reading. *)
Definition daily_world : World :=
  {| dateparser_parse := fun _ d => Returns d;
     now := fun k => Z.of_nat k * one_day |}.

(** A strict parser that reads back the instant 0 only. *)
Definition picky_iso : IsoParser :=
  {| parse_iso := fun d => if us_of d =? 0 then Returns d else Raises |}.



(** The cards that the sentences of a text give, in order. *)
Definition sentence_cards (text : str) : list Card :=
  flat_map (fun s => match cards_of_sentence s with
                     | Some cs => cs
                     | None => []
                     end)
    (Re.split_sentences text).

(** * Properties *)

(** ** The model at work *)

Example split_words :
  split $"  a b.  c " = [$"a"; $"b."; $"c"].
Proof. reflexivity. Qed.

Example split_sentences_trailing :
  Re.split_sentences $"One. Two!  three? "
  = [$"One."; $"Two!"; $"three?"; $""].
Proof. reflexivity. Qed.

Example split_newlines_runs :
  Re.split_newlines (map chr [10; 97; 10; 10; 98; 10])
  = [$""; $"a"; $"b"; $""].
Proof. reflexivity. Qed.

Example splitlines_crlf :
  splitlines (map chr [97; 13; 10; 98; 10; 10; 99; 13; 100; 10])
  = [$"a"; $"b"; $""; $"c"; $"d"].
Proof. reflexivity. Qed.

Example summarize_keywords_first :
  key_points
    (_simple_summarize $"This is key. Another one! The proof is here? last" 3)
  = [$"This is key."; $"The proof is here?"; $"Another one!"].
Proof. vm_compute. reflexivity. Qed.

Example flashcards_pad :
  _generate_flashcards $"A cat is a small furry animal. Done." 2
  = [ {| question := $"What is A cat?"; answer := $"a small furry animal." |};
      {| question := $"Key point 1?";
         answer := $"Review your notes for this topic." |} ].
Proof. vm_compute. reflexivity. Qed.

Example plan_uneven :
  map pt_due_date
    (pr_tasks (fst (plan {| p_title := $"Finals";
                            p_objectives := [$"a"; $"b"; $"c"; $"d"; $"e";
                                             $"f"; $"g"];
                            p_days := 3 |} 100 [])))
  = [100; 100; 101; 101; 102; 102; 102].
Proof. vm_compute. reflexivity. Qed.

Example extract_stale_date :
  map (fun t => (t_title t, t_due_date t, t_priority t))
    (fst (@_extract_tasks_and_deadlines stale_world
            $" Submit the final report" 0))
  = [($"Submit the final report", None, $"high")].
Proof. vm_compute. reflexivity. Qed.

Example extract_fresh_date :
  map (fun t => (t_title t, t_due_date t, t_priority t))
    (fst (@_extract_tasks_and_deadlines fresh_world
            $"read chapter 2 tomorrow" 0))
  = [($"read chapter 2 tomorrow", Some (Naive (2 * one_day)), $"medium")].
Proof. vm_compute. reflexivity. Qed.

Example rejected_in_stale_world :
  @date_rejected stale_world $"Submit the final report" 0.
Proof. right. exists (Naive 0). split; [reflexivity | vm_compute; reflexivity]. Qed.

(** ** Slices and lengths *)

Section Slices.
Context {A : Type}.
Implicit Types (l : list A) (n : Z).

Lemma len_nonneg l : 0 <= len l.
Proof. unfold len. lia. Qed.

Lemma len_app l l' : len (l ++ l') = len l + len l'.
Proof. unfold len. rewrite length_app. lia. Qed.

Lemma len_map {B} (f : A -> B) l : len (map f l) = len l.
Proof. unfold len. now rewrite length_map. Qed.

Lemma upto_nonneg n l : 0 <= n -> upto n l = firstn (Z.to_nat n) l.
Proof.
  intros Hn. unfold upto.
  destruct (Z.leb_spec 0 n) as [_ | Hlt]; [reflexivity | lia].
Qed.

Lemma upto_is_firstn n l : exists k, upto n l = firstn k l.
Proof. unfold upto. destruct (0 <=? n); eexists; reflexivity. Qed.

Lemma len_upto_le n l : 0 <= n -> len (upto n l) <= n.
Proof.
  intros Hn. rewrite upto_nonneg by assumption.
  unfold len. rewrite length_firstn. lia.
Qed.

Lemma len_upto_all n l : 0 <= n -> n <= len l -> len (upto n l) = n.
Proof.
  intros Hn Hl. rewrite upto_nonneg by assumption.
  unfold len in *. rewrite length_firstn. lia.
Qed.

Lemma Forall_upto (P : A -> Prop) n l : Forall P l -> Forall P (upto n l).
Proof.
  intros H. destruct (upto_is_firstn n l) as [k ->].
  rewrite <- (firstn_skipn k l) in H. now apply Forall_app in H.
Qed.

Lemma upto_cons_pos n a l : 0 < n -> exists l', upto n (a :: l) = a :: l'.
Proof.
  intros Hn. rewrite upto_nonneg by lia.
  destruct (Z.to_nat n) as [|k] eqn:E; [lia|].
  simpl. eexists; reflexivity.
Qed.

End Slices.

Lemma Forall2_singleton {A B} (R : A -> B -> Prop) (a : A) (l : list B) :
  Forall2 R [a] l -> exists b, l = [b] /\ R a b.
Proof.
  intros H. inversion H as [|a' b la lb Hab Hrest]; subst.
  inversion Hrest; subst. now exists b.
Qed.

(** ** Substrings and stripping *)

Section Substrings.
Implicit Types (v s : str) (p : ascii -> bool).

Lemma startswith_spec v s :
  startswith v s = true <-> exists b, s = v ++ b.
Proof.
  revert s. induction v as [|a v IH]; intros s; simpl.
  - split; [eexists; reflexivity | reflexivity].
  - destruct s as [|c s].
    + split; [discriminate | intros [b Hb]; discriminate].
    + rewrite andb_true_iff, IH. split.
      * intros [Hac [b ->]]. apply Ascii.eqb_eq in Hac as ->. now exists b.
      * intros [b [= -> ->]]. split; [apply Ascii.eqb_refl | now exists b].
Qed.

Lemma contains_spec v s :
  contains v s = true <-> exists a b, s = a ++ v ++ b.
Proof.
  induction s as [|c s IH]; simpl; rewrite orb_true_iff, startswith_spec.
  - split.
    + intros [[b Hb] | ?]; [|discriminate]. now exists [], b.
    + intros [a [b H]]. left. exists b.
      destruct a; [exact H | discriminate].
  - rewrite IH. split.
    + intros [[b Hb] | [a [b ->]]]; [now exists [], b | now exists (c :: a), b].
    + intros [[|c' a] [b H]]; [left; now exists b|].
      injection H as -> ->. right. now exists a, b.
Qed.

Lemma contains_rev v s : contains (rev v) (rev s) = contains v s.
Proof.
  apply eq_true_iff_eq. rewrite !contains_spec. split.
  - intros [a [b H]]. exists (rev b), (rev a).
    apply (f_equal (@rev ascii)) in H.
    now rewrite rev_involutive, !rev_app_distr, rev_involutive, <- app_assoc
      in H.
  - intros [a [b ->]]. exists (rev b), (rev a).
    now rewrite !rev_app_distr, <- app_assoc.
Qed.

(** Characters that a needle cannot begin with may be dropped in front. *)
Lemma contains_dropwhile p v s c v' :
  v = c :: v' -> p c = false ->
  contains v (dropwhile p s) = contains v s.
Proof.
  intros -> Hc. induction s as [|c0 s IH]; [reflexivity|].
  cbn [dropwhile]. destruct (p c0) eqn:E; [|reflexivity].
  rewrite IH. cbn [contains startswith].
  destruct (Ascii.eqb_spec c c0) as [-> | _]; [congruence | reflexivity].
Qed.

Lemma last_rev_cons (c : ascii) v d : hd d (rev (c :: v)) = last (c :: v) d.
Proof.
  revert c. induction v as [|a v IH]; intros c; [reflexivity|].
  change (last (c :: a :: v) d) with (last (a :: v) d).
  rewrite <- IH. simpl. now destruct (rev v).
Qed.

Lemma contains_strip_by p v s :
  match v with
  | [] => False
  | c :: _ => p c = false /\ p (last v c) = false
  end ->
  contains v (strip_by p s) = contains v s.
Proof.
  destruct v as [|c v']; [tauto|]. intros [Hc Hl].
  unfold strip_by, rstrip_by, lstrip_by.
  rewrite <- (rev_involutive (c :: v')) at 1. rewrite contains_rev.
  pose proof (last_rev_cons c v' c) as Hhd.
  destruct (rev (c :: v')) as [|c1 v1] eqn:E.
  - apply (f_equal (@length ascii)) in E. rewrite length_rev in E.
    discriminate.
  - cbn [hd] in Hhd. rewrite <- Hhd in Hl.
    rewrite (contains_dropwhile p _ _ _ v1 eq_refl Hl).
    rewrite <- E, contains_rev.
    apply (contains_dropwhile p _ _ c v' eq_refl Hc).
Qed.

Lemma isspace_lower_char c : isspace (lower_char c) = isspace c.
Proof. destruct c as [[] [] [] [] [] [] [] []]; reflexivity. Qed.

Lemma lower_dropwhile s :
  lower (dropwhile isspace s) = dropwhile isspace (lower s).
Proof.
  induction s as [|c s IH]; [reflexivity|]. simpl.
  rewrite isspace_lower_char. now destruct (isspace c).
Qed.

Lemma lower_strip s : lower (strip s) = strip (lower s).
Proof.
  unfold strip, strip_by, rstrip_by, lstrip_by, lower.
  rewrite map_rev. fold (lower (dropwhile isspace (rev (dropwhile isspace s)))).
  rewrite lower_dropwhile. unfold lower. rewrite map_rev.
  fold (lower (dropwhile isspace s)). now rewrite lower_dropwhile.
Qed.

Lemma any_in_strip ks s :
  forallb solid ks = true -> any_in ks (strip s) = any_in ks s.
Proof.
  intros Hks. unfold any_in. induction ks as [|k ks IH]; [reflexivity|].
  simpl in Hks. apply andb_prop in Hks as [Hk Hks]. simpl.
  rewrite (IH Hks). f_equal. apply contains_strip_by.
  destruct k as [|c k']; [discriminate|].
  unfold solid in Hk. apply andb_prop in Hk as [H1 H2].
  now rewrite negb_true_iff in H1, H2.
Qed.

Lemma dropwhile_nil p s : dropwhile p s = [] <-> forallb p s = true.
Proof.
  induction s as [|c s IH]; simpl; [tauto|].
  destruct (p c); simpl; [exact IH | split; discriminate].
Qed.

Lemma forallb_rev p s : forallb p (rev s) = forallb p s.
Proof.
  induction s as [|c s IH]; [reflexivity|]. simpl.
  rewrite forallb_app, IH. simpl. now rewrite andb_true_r, andb_comm.
Qed.

Lemma dropwhile_keeps p s c r :
  dropwhile p s = c :: r -> p c = false.
Proof.
  induction s as [|c0 s IH]; simpl; [discriminate|].
  destruct (p c0) eqn:E; [exact IH | now intros [= -> _]].
Qed.

(** A line strips to nothing exactly when it is blank. *)
Lemma truthy_strip s : truthy (strip s) = negb (blank s).
Proof.
  unfold strip, strip_by, rstrip_by, lstrip_by, blank.
  destruct (dropwhile isspace s) as [|c r] eqn:E.
  - apply dropwhile_nil in E. now rewrite E.
  - pose proof (dropwhile_keeps _ _ _ _ E) as Hc.
    assert (Hs : forallb isspace s = false).
    { destruct (forallb isspace s) eqn:F; [|reflexivity].
      apply dropwhile_nil in F. congruence. }
    rewrite Hs. simpl negb.
    destruct (dropwhile isspace (rev (c :: r))) as [|c1 r1] eqn:E1.
    + apply dropwhile_nil in E1. rewrite forallb_rev in E1. simpl in E1.
      now rewrite Hc in E1.
    + destruct (rev (c1 :: r1)) eqn:E2; [|reflexivity].
      apply (f_equal (@length ascii)) in E2. rewrite length_rev in E2.
      discriminate.
Qed.

(** Stripping leaves alone a text that neither begins nor ends with
    whitespace. *)
Lemma strip_solid s : solid s = true -> strip s = s.
Proof.
  destruct s as [|c r]; [discriminate|]. unfold solid.
  intros H. apply andb_prop in H as [H1 H2].
  rewrite negb_true_iff in H1, H2.
  unfold strip, strip_by, rstrip_by, lstrip_by.
  cbn [dropwhile]. rewrite H1.
  pose proof (last_rev_cons c r c) as Hhd.
  destruct (rev (c :: r)) as [|c1 r1] eqn:E.
  - apply (f_equal (@length ascii)) in E. rewrite length_rev in E.
    discriminate.
  - cbn [hd] in Hhd. rewrite <- Hhd in H2. cbn [dropwhile].
    rewrite H2, <- E. apply rev_involutive.
Qed.

End Substrings.

(** ** The summarizer *)

Section Summarizer.

Lemma len_shorten_point p : len (shorten_point p) <= 200.
Proof.
  unfold shorten_point.
  destruct (Z.leb_spec (len p) 200) as [Hle | Hgt]; [assumption|].
  rewrite len_app.
  pose proof (len_upto_le 197 p ltac:(lia)).
  change (len $"...") with 3. lia.
Qed.

(** A long point is cut to exactly 200 characters, its last three being
    the ellipsis. *)
Lemma shorten_point_long p :
  200 < len p -> shorten_point p = firstn 197 p ++ $"...".
Proof.
  intros H. unfold shorten_point.
  destruct (Z.leb_spec (len p) 200); [lia|].
  now rewrite upto_nonneg by lia.
Qed.

Lemma length_split_go s cur inw :
  length (split_go s cur inw)
  = ((if inw then 1 else 0) + count_words s (negb inw))%nat.
Proof.
  revert cur inw. induction s as [|c r IH]; intros cur inw; simpl.
  - now destruct inw.
  - destruct (isspace c).
    + destruct inw; simpl; now rewrite IH.
    + rewrite IH. destruct inw; simpl; lia.
Qed.

Lemma len_split s : len (split s) = word_count s.
Proof.
  unfold len, split, word_count. now rewrite length_split_go.
Qed.

End Summarizer.

(** C4. For every text and every [max_sentences >= 0], [key_points] of
    the summarizer holds at most [max_sentences] strings, each of at most
    200 characters. *)
Theorem simple_summarize_key_points_bounds (text : str) (max_sentences : Z) :
  0 <= max_sentences ->
  len (key_points (_simple_summarize text max_sentences)) <= max_sentences
  /\ Forall (fun p => len p <= 200)
       (key_points (_simple_summarize text max_sentences)).
Proof.
  intros Hmax. unfold _simple_summarize; simpl. split.
  - rewrite len_map. now apply len_upto_le.
  - apply Forall_map, Forall_forall. intros p _. apply len_shorten_point.
Qed.

Lemma simple_summarize_key_points_bounds_witness :
  len (key_points (_simple_summarize $"The key result. It is short." 1)) <= 1
  /\ Forall (fun p => len p <= 200)
       (key_points (_simple_summarize $"The key result. It is short." 1)).
Proof. apply simple_summarize_key_points_bounds. lia. Defined.

(** C9. The reading time of the summarizer is [max(1, floor(words / 180))]
    where [words] counts the whitespace-separated words of the text; the
    empty text has reading time 1. *)
Theorem simple_summarize_reading_time (text : str) (max_sentences : Z) :
  reading_time_min (_simple_summarize text max_sentences)
  = Z.max 1 (word_count text / 180)
  /\ reading_time_min (_simple_summarize $"" max_sentences) = 1.
Proof.
  unfold _simple_summarize, int_quot; simpl. rewrite len_split.
  split; reflexivity.
Qed.

(** ** The note extractor *)

Section Notes.

Lemma len_shorten_bullet b : len (shorten_bullet b) <= 183.
Proof.
  unfold shorten_bullet. rewrite len_app.
  pose proof (len_upto_le 180 b ltac:(lia)).
  destruct (len b >? 180); [change (len $"...") with 3 | change (len $"") with 0];
    lia.
Qed.

(** A bullet over 180 characters comes out with 183: its first 180
    characters and the ellipsis. *)
Lemma len_shorten_bullet_long b : 180 < len b -> len (shorten_bullet b) = 183.
Proof.
  intros H. unfold shorten_bullet. rewrite len_app.
  rewrite len_upto_all by lia.
  rewrite Z.gtb_ltb. destruct (Z.ltb_spec 180 (len b)); [reflexivity | lia].
Qed.

(** The loop adds at most one bullet per line and stops at [max_points]. *)
Lemma len_notes_loop lines max_points : forall bullets,
  len bullets < max_points ->
  len (notes_loop lines bullets max_points) <= max_points.
Proof.
  induction lines as [|raw rest IH]; intros bullets Hb;
    cbn [notes_loop]; [lia|].
  destruct (negb (truthy _)); [now apply IH|].
  assert (Hstep : forall bs, len bs <= max_points ->
            len (if len bs >=? max_points then bs
                 else notes_loop rest bs max_points) <= max_points).
  { intros bs Hbs. rewrite Z.geb_leb.
    destruct (Z.leb_spec max_points (len bs)); [assumption | now apply IH]. }
  destruct (any_in _ _); [|destruct (_ <=? 12)]; apply Hstep;
    rewrite ?len_app; unfold len in *; simpl; lia.
Qed.

Lemma len_make_exam_notes text max_points :
  1 <= max_points -> len (_make_exam_notes text max_points) <= max_points.
Proof.
  intros Hm. unfold _make_exam_notes. rewrite len_map.
  pose proof (len_notes_loop (Re.split_newlines text) max_points []
                ltac:(unfold len; simpl; lia)) as H.
  destruct (notes_loop _ _ _); [apply len_upto_le; lia | assumption].
Qed.

Lemma make_exam_notes_183 text max_points :
  Forall (fun b => len b <= 183) (_make_exam_notes text max_points).
Proof.
  unfold _make_exam_notes. apply Forall_map, Forall_forall.
  intros b _. apply len_shorten_bullet.
Qed.

End Notes.

(** C3, as stated, fails: a line of 181 letters comes back with 183
    characters, from the function and in the [Note] the endpoint creates;
    and with [max_points = 0] the first line kept is returned. *)
Lemma make_exam_notes_exceeds_180 :
  ~ Forall (fun b => len b <= 180) (_make_exam_notes long_line 10)
  /\ (forall n, snd (notes {| g_resource_id := None; g_text := Some long_line;
                              g_count := None |} []) = [($"note", DocNote n)] ->
                ~ Forall (fun b => len b <= 180) (note_bullets n))
  /\ ~ len (_make_exam_notes $"Ohm's law" 0) <= 0.
Proof.
  split; [|split].
  - intros H. apply Forall_inv in H. vm_compute in H. now apply H.
  - intros n [= <-] H. apply Forall_inv in H. vm_compute in H. now apply H.
  - vm_compute. intros H. now apply H.
Qed.

(** C3, amended. Every string the note extractor returns has at most 183
    characters (the first 180 of the candidate, then the ellipsis when the
    candidate was longer); for [max_points >= 1] the list has at most
    [max_points] elements; the [Note] that the endpoint creates holds at
    most 10 bullets of at most 183 characters. *)
Theorem make_exam_notes_bounds (text : str) (max_points : Z) :
  Forall (fun b => len b <= 183) (_make_exam_notes text max_points)
  /\ (1 <= max_points -> len (_make_exam_notes text max_points) <= max_points)
  /\ forall payload st, exists note,
       snd (notes payload st) = st ++ [($"note", DocNote note)]
       /\ len (note_bullets note) <= 10
       /\ Forall (fun b => len b <= 183) (note_bullets note).
Proof.
  split; [apply make_exam_notes_183|].
  split; [apply len_make_exam_notes|].
  intros payload st. eexists. split; [reflexivity|]. simpl. split.
  - apply len_make_exam_notes. lia.
  - apply make_exam_notes_183.
Qed.

Lemma make_exam_notes_bounds_witness :
  Forall (fun b => len b <= 183) (_make_exam_notes long_line 2)
  /\ len (_make_exam_notes long_line 2) <= 2.
Proof.
  destruct (make_exam_notes_bounds long_line 2) as (H183 & Hlen & _).
  split; [exact H183 | apply Hlen; lia].
Defined.

(** ** The flashcard generator *)

Section Flashcards.

Lemma truthy_nonempty (s : str) : truthy s = true -> s <> [].
Proof. destruct s; [discriminate | congruence]. Qed.

Lemma upto_pos_nonempty {A} (n : Z) (l : list A) :
  0 < n -> l <> [] -> upto n l <> [].
Proof.
  intros Hn Hl. destruct l as [|a l]; [congruence|].
  destruct (upto_cons_pos n a l Hn) as [l' ->]. discriminate.
Qed.

Lemma cards_of_sentence_ok s cs :
  cards_of_sentence s = Some cs -> Forall card_ok cs.
Proof.
  unfold cards_of_sentence.
  destruct (_ && _); [|intros [= <-]; constructor].
  destruct (if mem _ _ then _ else _) as [idx|]; [|discriminate].
  destruct (truthy _ && truthy _) eqn:E; intros [= <-]; [|constructor].
  apply andb_prop in E as [_ Hd].
  constructor; [|constructor]. split; simpl.
  - apply upto_pos_nonempty; [lia | discriminate].
  - apply upto_pos_nonempty; [lia | now apply truthy_nonempty].
Qed.

Lemma cards_loop_ok sentences n : forall cards,
  Forall card_ok cards -> Forall card_ok (cards_loop sentences cards n).
Proof.
  induction sentences as [|s rest IH]; intros cards Hc; simpl; [assumption|].
  destruct (cards_of_sentence s) as [cs|] eqn:E; [|now apply IH].
  assert (Forall card_ok (cards ++ cs))
    by (apply Forall_app; split; [assumption | eapply cards_of_sentence_ok; eassumption]).
  destruct (_ >=? _); [assumption | now apply IH].
Qed.

Lemma filler_card_ok i : card_ok (filler_card i).
Proof. split; discriminate. Qed.

(** The list before the final slice: the cards found, padded to [n]. *)
Lemma len_generate_flashcards text n :
  0 <= n -> len (_generate_flashcards text n) = n.
Proof.
  intros Hn. unfold _generate_flashcards.
  set (cards := cards_loop _ _ _).
  pose proof (len_nonneg cards).
  apply len_upto_all; [assumption|].
  destruct (Z.ltb_spec (len cards) n) as [Hlt | Hge]; [|assumption].
  rewrite len_app, len_map. unfold len at 2.
  rewrite length_seq. lia.
Qed.

(** When the text gives fewer than [n] cards, the result is these cards
    followed by the fillers "Key point 1?", "Key point 2?", ... *)
Lemma generate_flashcards_padding text n :
  let found := cards_loop (Re.split_sentences text) [] n in
  len found < n ->
  _generate_flashcards text n
  = found ++ map filler_card (seq 0 (Z.to_nat (n - len found))).
Proof.
  intros found Hlt. unfold _generate_flashcards. fold found.
  destruct (Z.ltb_spec (len found) n) as [_ | Hge]; [|lia].
  pose proof (len_nonneg found).
  rewrite upto_nonneg by lia. apply firstn_all2.
  rewrite length_app, length_map, length_seq. unfold len in *. lia.
Qed.

Lemma generate_flashcards_ok text n :
  Forall card_ok (_generate_flashcards text n).
Proof.
  unfold _generate_flashcards. apply Forall_upto.
  assert (H : Forall card_ok (cards_loop (Re.split_sentences text) [] n))
    by (apply cards_loop_ok; constructor).
  destruct (_ <? _); [|assumption].
  apply Forall_app; split; [assumption|].
  apply Forall_map, Forall_forall. intros i _. apply filler_card_ok.
Qed.

End Flashcards.

(** C1. For every text and every count [n >= 0] the flashcard generator
    returns exactly [n] cards, each with a non-empty question and a
    non-empty answer. *)
Theorem generate_flashcards_exactly_n (text : str) (n : Z) :
  0 <= n ->
  len (_generate_flashcards text n) = n
  /\ Forall (fun c => question c <> [] /\ answer c <> [])
       (_generate_flashcards text n).
Proof.
  intros Hn. split.
  - now apply len_generate_flashcards.
  - apply generate_flashcards_ok.
Qed.

Lemma generate_flashcards_exactly_n_witness :
  len (_generate_flashcards $"A cat is a small furry animal. Done." 3) = 3
  /\ Forall (fun c => question c <> [] /\ answer c <> [])
       (_generate_flashcards $"A cat is a small furry animal. Done." 3).
Proof. apply generate_flashcards_exactly_n. lia. Defined.

(** ** The flashcards endpoint *)

Section FlashcardsEndpoint.

(** One record is created per card, in the order of the cards. *)
Lemma create_cards_spec rid cards : forall ids st,
  snd (create_cards rid cards ids st) = st ++ map (flashcard_doc rid) cards
  /\ length (fst (create_cards rid cards ids st))
     = (length ids + length cards)%nat.
Proof.
  induction cards as [|c rest IH]; intros ids st.
  - simpl. rewrite app_nil_r. split; [reflexivity | lia].
  - destruct (IH (ids ++ [str_of_nat (length st)])
                 (st ++ [flashcard_doc rid c])) as [Hs Hl].
    change (create_cards rid (c :: rest) ids st)
      with (create_cards rid rest (ids ++ [str_of_nat (length st)])
              (st ++ [flashcard_doc rid c])).
    rewrite Hs, Hl, <- app_assoc, length_app.
    split; [reflexivity | simpl; lia].
Qed.

End FlashcardsEndpoint.

(** C10. At the flashcards endpoint a count of 0 behaves as an absent
    count (the field then holds its default 8, or [None] for a null): the
    default 8 is used, so 8 cards are generated and 8 flashcard records are
    created. *)
Theorem flashcards_zero_count_is_default
  (rid text : option str) (st : Store) :
  let zero := {| g_resource_id := rid; g_text := text; g_count := Some 0 |} in
  let absent := {| g_resource_id := rid; g_text := text; g_count := Some 8 |} in
  let null := {| g_resource_id := rid; g_text := text; g_count := None |} in
  flashcards zero st = flashcards absent st
  /\ flashcards zero st = flashcards null st
  /\ fr_count (fst (flashcards zero st)) = 8
  /\ length (fr_cards (fst (flashcards zero st))) = 8%nat
  /\ length (fr_ids (fst (flashcards zero st))) = 8%nat
  /\ snd (flashcards zero st)
     = st ++ map (flashcard_doc rid) (fr_cards (fst (flashcards zero st)))
  /\ length (snd (flashcards zero st)) = (length st + 8)%nat.
Proof.
  intros zero absent null. do 2 (split; [reflexivity|]).
  unfold flashcards, bind, ret, zero; simpl.
  set (cards := _generate_flashcards _ 8).
  assert (Hlen : len cards = 8) by (apply len_generate_flashcards; lia).
  assert (Hn : length cards = 8%nat) by (unfold len in Hlen; lia).
  destruct (create_cards_spec rid cards [] st) as [Hs Hl].
  destruct (create_cards rid cards [] st) as [ids st'] eqn:E; simpl in *.
  subst st'. rewrite length_app, length_map.
  repeat split; try assumption; lia.
Qed.

(** ** The task extractor *)

Section Extractor.
Context {W : World}.

(** The test of the loop, read on the line as it stands in the text. *)
Lemma extract_loop_cons line rest tasks k :
  extract_loop (line :: rest) tasks k
  = if action_line line
    then extract_loop rest (tasks ++ [fst (task_of_line (strip line) k)])
           (snd (task_of_line (strip line) k))
    else extract_loop rest tasks k.
Proof.
  cbn [extract_loop]. unfold action_line.
  rewrite truthy_strip, lower_strip, any_in_strip by reflexivity.
  destruct (blank line); [reflexivity|]. cbn [negb andb].
  destruct (any_in action_verbs (lower line)); [|reflexivity].
  now destruct (task_of_line (strip line) k).
Qed.

Lemma extract_loop_app lines : forall tasks k,
  extract_loop lines tasks k
  = (tasks ++ fst (extract_loop lines [] k), snd (extract_loop lines [] k)).
Proof.
  induction lines as [|line rest IH]; intros tasks k.
  - simpl. now rewrite app_nil_r.
  - rewrite !extract_loop_cons. destruct (action_line line); [|apply IH].
    rewrite IH. rewrite (IH ([] ++ _)). simpl. now rewrite <- app_assoc.
Qed.

(** One task per action line, in the order of the lines, each made by the
    loop body at some reading of the clock. *)
Lemma extract_loop_tasks lines : forall k,
  Forall2 (fun line t => exists j, t = fst (task_of_line (strip line) j))
    (filter action_line lines) (fst (extract_loop lines [] k)).
Proof.
  induction lines as [|line rest IH]; intros k.
  - constructor.
  - rewrite extract_loop_cons. cbn [filter].
    destruct (action_line line); [|apply IH].
    rewrite extract_loop_app. simpl. constructor; [now exists k | apply IH].
Qed.

Lemma task_of_line_fields l j :
  let t := fst (task_of_line l j) in
  t_title t = upto 120 l
  /\ t_status t = $"todo"
  /\ t_priority t = (if any_in exam_words (lower l) then $"high" else $"medium")
  /\ t_due_date t = fst (parse_due l j).
Proof.
  unfold task_of_line. destruct (parse_due l j). simpl. tauto.
Qed.

Lemma parse_due_rejected l j :
  date_rejected l j -> fst (parse_due l j) = None.
Proof.
  unfold date_rejected, parse_due.
  intros [-> | [due [-> Hlt]]]; [reflexivity|].
  destruct due as [us | us]; simpl in *; [|reflexivity].
  destruct (Z.ltb_spec us (now (S j) - one_day)); [reflexivity | lia].
Qed.

(** A naive date that is not stale is kept. *)
Lemma parse_due_kept l j us :
  dateparser_parse l (Naive (now j)) = Returns (Naive us) ->
  now (S j) - one_day <= us ->
  fst (parse_due l j) = Some (Naive us).
Proof.
  unfold parse_due. intros -> H. simpl.
  destruct (Z.ltb_spec us (now (S j) - one_day)); [lia | reflexivity].
Qed.

End Extractor.

(** C6. Every action line yields its task, and when the parser fails on
    the line, or returns a date more than one day in the past, the due
    date of that task is absent. *)
Theorem extract_tasks_rejected_date_absent (W : World) (text : str) (k : nat) :
  let tasks := fst (_extract_tasks_and_deadlines text k) in
  length tasks = length (filter action_line (splitlines text))
  /\ Forall2
       (fun line t =>
          exists j, t = fst (task_of_line (strip line) j)
                    /\ (date_rejected (strip line) j -> t_due_date t = None))
       (filter action_line (splitlines text)) tasks.
Proof.
  intros tasks. subst tasks. unfold _extract_tasks_and_deadlines.
  pose proof (extract_loop_tasks (splitlines text) k) as H.
  split; [symmetry; eapply Forall2_length; exact H|].
  eapply Forall2_impl; [|exact H]. simpl.
  intros line t [j ->]. exists j. split; [reflexivity|].
  intros Hr. destruct (task_of_line_fields (strip line) j) as (_ & _ & _ & ->).
  now apply parse_due_rejected.
Qed.


Lemma extract_tasks_rejected_date_absent_witness :
  exists t,
    fst (@_extract_tasks_and_deadlines stale_world
           $"Submit the final report" 0) = [t]
    /\ t_due_date t = None.
Proof.
  destruct (extract_tasks_rejected_date_absent stale_world
              $"Submit the final report" 0) as [_ H].
  change (filter action_line (splitlines $"Submit the final report"))
    with [$"Submit the final report"] in H.
  apply Forall2_singleton in H as [t [Ht [j [_ Hnone]]]].
  exists t. split; [exact Ht|].
  apply Hnone. right. exists (Naive 0).
  split; [reflexivity | vm_compute; reflexivity].
Defined.

(** C7, as stated, fails: the title is cut from the stripped line, not
    from the line. *)
Lemma extract_tasks_title_is_stripped :
  filter action_line (splitlines $"  submit essay") = [$"  submit essay"]
  /\ map t_title
       (fst (@_extract_tasks_and_deadlines silent_world $"  submit essay" 0))
     <> [upto 120 $"  submit essay"].
Proof. split; [reflexivity | vm_compute; discriminate]. Qed.

(** C7, amended. The tasks of the extractor are, in the order of the
    lines, one per non-blank line that holds an action verb (whatever the
    case); the title is the line without its leading and trailing
    whitespace, cut to 120 characters; the status is "todo"; the priority
    is "high" when the line mentions exam, midterm or final, and "medium"
    otherwise. *)
Theorem extract_tasks_one_per_action_line
  (W : World) (text : str) (k : nat) :
  Forall2
    (fun line t =>
       t_title t = upto 120 (strip line)
       /\ t_status t = $"todo"
       /\ (t_priority t = $"high" <-> mentions_exam line = true)
       /\ (t_priority t = $"medium" <-> mentions_exam line = false))
    (filter action_line (splitlines text))
    (fst (_extract_tasks_and_deadlines text k)).
Proof.
  unfold _extract_tasks_and_deadlines.
  eapply Forall2_impl; [|apply extract_loop_tasks]. simpl.
  intros line t [j ->].
  destruct (task_of_line_fields (strip line) j) as (-> & -> & -> & _).
  rewrite lower_strip, any_in_strip by reflexivity.
  fold (mentions_exam line).
  split; [reflexivity|]. split; [reflexivity|].
  destruct (mentions_exam line); split; split;
    try reflexivity; try discriminate.
Qed.

(** ** The study-plan builder *)

Section Plan.
Variables start days per_day : Z.

Local Abbreviation loop := (plan_loop start days per_day).

(** The task list is only ever extended at its end. *)
Lemma plan_loop_app objectives : forall i day_pointer tasks,
  loop objectives i day_pointer tasks
  = tasks ++ loop objectives i day_pointer [].
Proof.
  induction objectives as [|obj rest IH]; intros i dp tasks; simpl.
  - now rewrite app_nil_r.
  - rewrite IH. rewrite (IH _ _ [_]). now rewrite <- app_assoc.
Qed.

Lemma plan_loop_titles objectives : forall i day_pointer,
  map pt_title (loop objectives i day_pointer []) = objectives.
Proof.
  induction objectives as [|obj rest IH]; intros i dp; [reflexivity|].
  simpl. rewrite plan_loop_app. simpl. now rewrite IH.
Qed.

(** From a day pointer [dp] on, every due date lies between the date of
    [dp] and the last day, and the dates never decrease. *)
Lemma plan_loop_dates objectives : forall i day_pointer,
  1 <= days ->
  0 <= day_pointer ->
  let dues := map pt_due_date (loop objectives i day_pointer []) in
  Forall (fun d => start + Z.min day_pointer (days - 1) <= d
                   <= start + days - 1) dues
  /\ StronglySorted Z.le dues.
Proof.
  induction objectives as [|obj rest IH]; intros i dp Hdays Hdp; simpl.
  - split; constructor.
  - rewrite plan_loop_app; simpl.
    set (dp' := if _ =? 0 then dp + 1 else dp).
    assert (Hdp' : dp <= dp' <= dp + 1)
      by (subst dp'; destruct (_ =? 0); lia).
    destruct (IH (i + 1) dp' Hdays ltac:(lia)) as [Hb Hs].
    split.
    + constructor; [lia|].
      eapply Forall_impl; [|exact Hb]. simpl. intros d Hd. lia.
    + constructor; [exact Hs|].
      eapply Forall_impl; [|exact Hb]. simpl. intros d Hd. lia.
Qed.

End Plan.

(** C2, as stated, fails: with three objectives and [days = 3] the due
    dates are not today, today, today + 1. *)
Lemma plan_three_objectives_not_0_0_1 :
  map pt_due_date
    (pr_tasks (fst (plan {| p_title := $"Week 1";
                            p_objectives := [$"Read"; $"Solve"; $"Revise"];
                            p_days := 3 |} 0 [])))
  <> [0; 0; 0 + 1].
Proof. vm_compute. discriminate. Qed.

(** C2, amended. With exactly three objectives and [days = 3] the plan has
    three tasks, due today, today + 1 and today + 2 in this order. *)
Theorem plan_three_objectives_three_days
  (title o1 o2 o3 : str) (today : Z) (st : Store) :
  let tasks := pr_tasks (fst (plan {| p_title := title;
                                      p_objectives := [o1; o2; o3];
                                      p_days := 3 |} today st)) in
  length tasks = 3%nat
  /\ map pt_title tasks = [o1; o2; o3]
  /\ map pt_due_date tasks = [today; today + 1; today + 2].
Proof.
  simpl. repeat split; repeat f_equal; lia.
Qed.

(** C5. For a non-empty list of objectives and [days >= 1] the plan has
    one task per objective, in the order of the objectives; the due dates
    never decrease and none is after today + days - 1. *)
Theorem plan_one_task_per_objective
  (payload : PlanIn) (today : Z) (st : Store) :
  p_objectives payload <> [] ->
  1 <= p_days payload ->
  let tasks := pr_tasks (fst (plan payload today st)) in
  length tasks = length (p_objectives payload)
  /\ map pt_title tasks = p_objectives payload
  /\ StronglySorted Z.le (map pt_due_date tasks)
  /\ Forall (fun d => d <= today + p_days payload - 1)
       (map pt_due_date tasks).
Proof.
  intros Hne Hdays. unfold plan, bind, ret; simpl.
  destruct (p_objectives payload) as [|o objs] eqn:E; [congruence|].
  set (per_day := Z.max 1 _).
  pose proof (plan_loop_titles today (p_days payload) per_day (o :: objs) 0 0)
    as Ht.
  destruct (plan_loop_dates today (p_days payload) per_day (o :: objs) 0 0
              Hdays ltac:(lia)) as [Hb Hs].
  repeat split.
  - rewrite <- Ht at 2. now rewrite length_map.
  - exact Ht.
  - exact Hs.
  - eapply Forall_impl; [|exact Hb]. simpl. intros d Hd. lia.
Qed.

Lemma plan_one_task_per_objective_witness :
  let payload := {| p_title := $"Week 1";
                    p_objectives := [$"a"; $"b"; $"c"; $"d"; $"e"];
                    p_days := 2 |} in
  let tasks := pr_tasks (fst (plan payload 100 [])) in
  length tasks = length (p_objectives payload)
  /\ map pt_title tasks = p_objectives payload
  /\ StronglySorted Z.le (map pt_due_date tasks)
  /\ Forall (fun d => d <= 100 + p_days payload - 1)
       (map pt_due_date tasks).
Proof.
  intros payload.
  apply (plan_one_task_per_objective payload 100 []);
    [discriminate | simpl; lia].
Defined.

(** ** The doubt explainer *)

Section Doubts.

Lemma doubts_final_answer payload st :
  dr_final_answer (fst (doubts payload st)) = disclaimer.
Proof. reflexivity. Qed.

Lemma doubts_steps_no_context question st :
  dr_steps (fst (doubts {| q_question := question; q_context := None |} st))
  = [restate_prefix ++ strip question;
     $"Identify knowns and unknowns";
     $"Break into sub-problems and solve step-by-step";
     $"Verify the result with a quick check or example"].
Proof. reflexivity. Qed.

End Doubts.

(** A question that neither begins nor ends with whitespace is restated
    as it is. *)
Lemma doubts_restates_solid_question (question : str) (st : Store) :
  solid question = true ->
  hd [] (dr_steps (fst (doubts {| q_question := question;
                                  q_context := None |} st)))
  = restate_prefix ++ question.
Proof.
  intros H. rewrite doubts_steps_no_context. simpl hd.
  now rewrite strip_solid.
Qed.

(** C8, as stated, fails: the question is not restated verbatim when it
    begins or ends with whitespace. *)
Lemma doubts_restates_stripped_question :
  hd [] (dr_steps (fst (doubts {| q_question := $" Why?";
                                  q_context := None |} [])))
  <> restate_prefix ++ $" Why?".
Proof. vm_compute. discriminate. Qed.

(** C8, amended. For every question and no context the doubt explainer
    returns exactly 4 steps, none of which is a context step; the first
    step is the prefix "Restate the question: " followed by the question
    without its leading and trailing whitespace; the final answer is the
    same fixed disclaimer for every request. *)
Theorem doubts_without_context (question : str) (st : Store) :
  let r := fst (doubts {| q_question := question; q_context := None |} st) in
  length (dr_steps r) = 4%nat
  /\ Forall (fun s => startswith context_prefix s = false) (dr_steps r)
  /\ hd [] (dr_steps r) = restate_prefix ++ strip question
  /\ dr_final_answer r = disclaimer
  /\ forall payload st', dr_final_answer (fst (doubts payload st')) = disclaimer.
Proof.
  intros r. subst r. rewrite doubts_steps_no_context.
  repeat split; try reflexivity.
  repeat constructor.
Qed.

(** * Further properties of the code *)

(** ** Blank texts *)

Section Blank.
Implicit Types (s : str).

Lemma strip_blank s : blank s = true -> strip s = [].
Proof.
  intros H. pose proof (truthy_strip s) as T. rewrite H in T.
  now destruct (strip s).
Qed.

Lemma split_go_blank s : blank s = true -> split_go s [] false = [].
Proof.
  induction s as [|c r IH]; [reflexivity|]. unfold blank. simpl.
  intros H. apply andb_prop in H as [Hc Hr]. rewrite Hc. now apply IH.
Qed.

Lemma split_blank s : blank s = true -> split s = [].
Proof. apply split_go_blank. Qed.

Lemma upto_nil {A} (n : Z) : upto n (@nil A) = [].
Proof. unfold upto. destruct (0 <=? n); apply firstn_nil. Qed.

End Blank.

Lemma simple_summarize_of_blank (text : str) (max_sentences : Z) :
  blank text = true ->
  _simple_summarize text max_sentences
  = {| content := $""; key_points := []; reading_time_min := 1 |}.
Proof.
  intros Hb. unfold _simple_summarize.
  rewrite (strip_blank _ Hb), (split_blank _ Hb). simpl.
  destruct (len [] <? max_sentences); now rewrite !upto_nil.
Qed.

(** A text of whitespace only, the empty text included, has the empty
    summary: no content, no key point, and a reading time of 1. *)
Theorem simple_summarize_blank (text : str) (max_sentences : Z) :
  blank text = true ->
  _simple_summarize text max_sentences
  = {| content := $""; key_points := []; reading_time_min := 1 |}.
Proof. apply simple_summarize_of_blank. Qed.

Lemma simple_summarize_blank_witness :
  _simple_summarize (map chr [32; 10; 9; 32]) 5
  = {| content := $""; key_points := []; reading_time_min := 1 |}.
Proof. apply simple_summarize_blank. reflexivity. Defined.

(** ** The choice of the summarizer *)

Section Choice.
Implicit Types (s : str) (kp sentences : list str).

Lemma eqb_true_iff (a b : str) : eqb a b = true <-> a = b.
Proof.
  unfold eqb. destruct (list_eq_dec ascii_dec a b); split;
    congruence.
Qed.

Lemma mem_In s kp : mem s kp = true <-> In s kp.
Proof.
  unfold mem. rewrite existsb_exists. split.
  - intros [x [Hin Hx]]. apply eqb_true_iff in Hx. now subst.
  - intros Hin. exists s. split; [assumption | now apply eqb_true_iff].
Qed.

(** The first loop appends the sentences with a keyword in their order,
    up to some point; and all of them when it ends below
    [max_sentences]. *)
Lemma keyword_pass_spec sentences max_sentences : forall kp,
  exists K R,
    keyword_pass sentences kp max_sentences = kp ++ K
    /\ filter has_keyword sentences = K ++ R
    /\ (len (kp ++ K) < max_sentences -> R = []).
Proof.
  induction sentences as [|s rest IH]; intros kp; cbn [keyword_pass].
  - exists [], []. rewrite app_nil_r. now repeat split.
  - rewrite Z.geb_leb.
    destruct (Z.leb_spec max_sentences (len kp)) as [Hfull | Hroom].
    + exists [], (filter has_keyword (s :: rest)). rewrite app_nil_r.
      repeat split. lia.
    + fold (has_keyword s). cbn [filter].
      destruct (has_keyword s) eqn:Hk.
      * destruct (IH (kp ++ [s])) as (K & R & HK & Hpre & Hall).
        exists (s :: K), R. rewrite HK, <- app_assoc, Hpre.
        repeat split. intros Hlt. apply Hall. now rewrite <- app_assoc.
      * destruct (IH kp) as (K & R & HK & Hpre & Hall).
        exists K, R. now repeat split.
Qed.

Lemma keyword_prefix_in sentences K R s :
  filter has_keyword sentences = K ++ R -> In s K ->
  In s sentences /\ has_keyword s = true.
Proof.
  intros Hpre Hs. apply filter_In. rewrite Hpre.
  apply in_or_app. now left.
Qed.

(** The second loop appends sentences not chosen before, each once. *)
Lemma fill_pass_spec sentences max_sentences : forall kp,
  exists F,
    fill_pass sentences kp max_sentences = kp ++ F
    /\ Forall (fun s => In s sentences /\ ~ In s kp) F
    /\ NoDup F.
Proof.
  induction sentences as [|s rest IH]; intros kp; cbn [fill_pass].
  - exists []. rewrite app_nil_r. repeat split; constructor.
  - destruct (mem s kp) eqn:Hm; cbn [negb].
    + assert (Hrest : exists F, fill_pass rest kp max_sentences = kp ++ F
                /\ Forall (fun x => In x (s :: rest) /\ ~ In x kp) F
                /\ NoDup F).
      { destruct (IH kp) as (F & HF & Hin & Hnd). exists F.
        repeat split; try assumption.
        eapply Forall_impl; [|exact Hin]. simpl. tauto. }
      destruct (len kp >=? max_sentences); [|exact Hrest].
      exists []. rewrite app_nil_r. repeat split; constructor.
    + assert (Hs : ~ In s kp).
      { intros Hin. apply mem_In in Hin. congruence. }
      destruct (len (kp ++ [s]) >=? max_sentences).
      * exists [s]. repeat split.
        -- constructor; [|constructor]. split; [now left | assumption].
        -- constructor; [intros [] | constructor].
      * destruct (IH (kp ++ [s])) as (F & HF & Hin & Hnd).
        exists (s :: F). rewrite HF, <- app_assoc. simpl.
        repeat split.
        -- constructor; [split; [now left | assumption]|].
           eapply Forall_impl; [|exact Hin]. simpl.
           intros x [Hx Hnx]. split; [now right|].
           intros Hk. apply Hnx. apply in_or_app. now left.
        -- constructor; [|assumption].
           intros HsF. rewrite Forall_forall in Hin.
           destruct (Hin s HsF) as [_ Hn]. apply Hn.
           apply in_or_app. right. now left.
Qed.

Lemma NoDup_firstn {A} (k : nat) (l : list A) :
  NoDup l -> NoDup (firstn k l).
Proof.
  intros H. rewrite <- (firstn_skipn k l) in H.
  now apply NoDup_app_remove_r in H.
Qed.

Lemma sentences_of_nonempty text s : In s (sentences_of text) -> s <> [].
Proof.
  unfold sentences_of. rewrite in_map_iff.
  intros [x [<- Hin]]. apply filter_In in Hin as [_ Ht].
  now apply truthy_nonempty.
Qed.

Lemma shorten_point_nonempty s : s <> [] -> shorten_point s <> [].
Proof.
  intros Hs. unfold shorten_point. destruct (len s <=? 200); [assumption|].
  intros H. apply app_eq_nil in H as [_ H]. discriminate.
Qed.

(** The list the summarizer slices, before the slice. *)
Lemma chosen_in_sentences sentences max_sentences :
  let kp := keyword_pass sentences [] max_sentences in
  incl (if len kp <? max_sentences
        then fill_pass sentences kp max_sentences else kp) sentences.
Proof.
  intros kp. subst kp.
  destruct (keyword_pass_spec sentences max_sentences [])
    as (K & R & HK & Hpre & _).
  rewrite HK. simpl app.
  assert (HinK : incl K sentences)
    by (intros x Hx; eapply keyword_prefix_in; eassumption).
  destruct (len K <? max_sentences); [|assumption].
  destruct (fill_pass_spec sentences max_sentences K) as (F & HF & HinF & _).
  rewrite HF. apply incl_app; [assumption|].
  intros x Hx. rewrite Forall_forall in HinF. now apply HinF.
Qed.

End Choice.

Lemma simple_summarize_key_points_nonempty (text : str) (max_sentences : Z) :
  Forall (fun p => p <> [] /\ len p <= 200)
    (key_points (_simple_summarize text max_sentences)).
Proof.
  unfold _simple_summarize. cbn [key_points]. fold (sentences_of text).
  apply Forall_map, Forall_upto, Forall_forall. intros s Hs.
  apply (chosen_in_sentences (sentences_of text) max_sentences) in Hs.
  split; [|apply len_shorten_point].
  apply shorten_point_nonempty. eapply sentences_of_nonempty; eassumption.
Qed.

(** Every key point of a summary is a non-empty sentence of the text, or
    the first 197 characters of one followed by the ellipsis. *)
Theorem simple_summarize_key_points_origin (text : str) (max_sentences : Z) :
  Forall (fun p => p <> []
                   /\ exists s, In s (sentences_of text)
                                /\ p = shorten_point s)
    (key_points (_simple_summarize text max_sentences)).
Proof.
  unfold _simple_summarize. cbn [key_points]. fold (sentences_of text).
  apply Forall_map, Forall_upto, Forall_forall. intros s Hs.
  apply (chosen_in_sentences (sentences_of text) max_sentences) in Hs.
  split; [|now exists s].
  apply shorten_point_nonempty. eapply sentences_of_nonempty; eassumption.
Qed.

(** The summarizer puts the sentences with a keyword first: the chosen
    sentences are the first sentences with a keyword, in the order of the
    text, followed by sentences without one, each once; and a sentence
    without a keyword is chosen only when every sentence with a keyword
    is. *)
Theorem simple_summarize_keywords_first (text : str) (max_sentences : Z) :
  0 <= max_sentences ->
  exists K R F,
    key_points (_simple_summarize text max_sentences)
    = map shorten_point (K ++ F)
    /\ content (_simple_summarize text max_sentences) = join $" " (K ++ F)
    /\ filter has_keyword (sentences_of text) = K ++ R
    /\ Forall (fun s => In s (sentences_of text) /\ has_keyword s = false) F
    /\ NoDup F
    /\ (F <> [] -> R = []).
Proof.
  intros Hmax. unfold _simple_summarize. cbn [key_points content].
  fold (sentences_of text). set (sentences := sentences_of text).
  destruct (keyword_pass_spec sentences max_sentences [])
    as (K & R & HK & Hpre & Hall).
  rewrite HK. simpl app in *.
  destruct (Z.ltb_spec (len K) max_sentences) as [Hlt | Hge].
  - destruct (fill_pass_spec sentences max_sentences K)
      as (F & HF & HinF & Hnd).
    rewrite HF, upto_nonneg by assumption.
    specialize (Hall Hlt). subst R. rewrite app_nil_r in Hpre.
    rewrite firstn_app, firstn_all2 by (unfold len in Hlt; lia).
    exists K, [], (firstn (Z.to_nat max_sentences - length K) F).
    rewrite app_nil_r. repeat split; try assumption.
    + rewrite <- (firstn_skipn (Z.to_nat max_sentences - length K) F) in HinF.
      apply Forall_app in HinF as [HinF _].
      eapply Forall_impl; [|exact HinF]. simpl. intros s [Hs Hn].
      split; [assumption|].
      destruct (has_keyword s) eqn:Hk; [|reflexivity].
      exfalso. apply Hn. rewrite <- Hpre. apply filter_In. now split.
    + now apply NoDup_firstn.
  - rewrite upto_nonneg by assumption.
    exists (firstn (Z.to_nat max_sentences) K),
      (skipn (Z.to_nat max_sentences) K ++ R), [].
    rewrite app_nil_r, app_assoc, firstn_skipn.
    repeat split; try constructor; try assumption. congruence.
Qed.

Lemma simple_summarize_keywords_first_witness :
  exists K R F,
    key_points (_simple_summarize $"Plain one. The key result. Plain two." 2)
    = map shorten_point (K ++ F)
    /\ content (_simple_summarize $"Plain one. The key result. Plain two." 2)
       = join $" " (K ++ F)
    /\ filter has_keyword
         (sentences_of $"Plain one. The key result. Plain two.") = K ++ R
    /\ Forall (fun s => In s (sentences_of $"Plain one. The key result. Plain two.")
                        /\ has_keyword s = false) F
    /\ NoDup F
    /\ (F <> [] -> R = []).
Proof. apply simple_summarize_keywords_first. lia. Defined.

(** ** Notes: the fallback *)

Section NotesFallback.

Lemma split_sentences_go_nonempty s : forall cur stop insep,
  Re.split_sentences_go s cur stop insep <> [].
Proof.
  induction s as [|c r IH]; intros cur stop insep; simpl; [discriminate|].
  destruct insep; [destruct (isspace c); apply IH|].
  destruct (isspace c && stop); [discriminate | apply IH].
Qed.

Lemma split_sentences_nonempty s : Re.split_sentences s <> [].
Proof. apply split_sentences_go_nonempty. Qed.

End NotesFallback.

(** For [max_points >= 1] the note extractor never returns an empty
    list: a text without a line to keep gives its first sentences, and
    the empty text gives one empty bullet. *)
Theorem make_exam_notes_never_empty (text : str) (max_points : Z) :
  1 <= max_points ->
  _make_exam_notes text max_points <> []
  /\ _make_exam_notes $"" max_points = [$""].
Proof.
  intros Hm. split.
  - unfold _make_exam_notes.
    destruct (notes_loop _ _ _); [|discriminate].
    pose proof (split_sentences_nonempty text) as Hne.
    destruct (Re.split_sentences text) as [|s ss]; [congruence|].
    destruct (upto_cons_pos max_points s ss ltac:(lia)) as [l' ->].
    discriminate.
  - assert (Hu : upto max_points [$""] = [$""]).
    { rewrite upto_nonneg by lia.
      destruct (Z.to_nat max_points) eqn:E; [lia|].
      simpl. now rewrite firstn_nil. }
    transitivity (map shorten_bullet (upto max_points [$""]));
      [reflexivity | now rewrite Hu].
Qed.

Lemma make_exam_notes_never_empty_witness :
  _make_exam_notes $"No line to keep here because this single line has many more than twelve words." 10 <> []
  /\ _make_exam_notes $"" 10 = [$""].
Proof. apply make_exam_notes_never_empty. lia. Defined.

(** ** Flashcards: every count, and the shape of the cards *)

Section Cards.

Lemma cards_of_sentence_le1 s cs :
  cards_of_sentence s = Some cs -> (length cs <= 1)%nat.
Proof.
  unfold cards_of_sentence.
  destruct (_ && _); [|intros [= <-]; simpl; lia].
  destruct (if mem _ _ then _ else _) as [idx|]; [|discriminate].
  destruct (truthy _ && truthy _); intros [= <-]; simpl; lia.
Qed.

(** With a negative count the loop stops at the first sentence it
    reads through. *)
Lemma cards_loop_negative sentences n :
  n < 0 -> (length (cards_loop sentences [] n) <= 1)%nat.
Proof.
  intros Hn. induction sentences as [|s rest IH]; simpl; [lia|].
  destruct (cards_of_sentence s) as [cs|] eqn:E; [|assumption].
  pose proof (cards_of_sentence_le1 _ _ E).
  rewrite Z.geb_leb.
  destruct (Z.leb_spec n (len cs)) as [_ | Hlt]; [assumption|].
  pose proof (len_nonneg cs). lia.
Qed.

Lemma cards_of_sentence_shape s cs :
  cards_of_sentence s = Some cs -> Forall sentence_card cs.
Proof.
  unfold cards_of_sentence.
  destruct (_ && _); [|intros [= <-]; constructor].
  destruct (if mem _ _ then _ else _) as [idx|]; [|discriminate].
  destruct (truthy _ && truthy _) eqn:E; intros [= <-]; [|constructor].
  apply andb_prop in E as [_ Hd]. apply truthy_nonempty in Hd.
  constructor; [|constructor]. unfold sentence_card; cbn [question answer].
  split; [|split].
  - rewrite upto_nonneg by lia. reflexivity.
  - apply len_upto_le. lia.
  - pose proof (len_upto_le 300 (strip (join $" " (skipn (S idx) (split s))))
                  ltac:(lia)).
    pose proof (upto_pos_nonempty 300 _ ltac:(lia) Hd) as Hne.
    destruct (upto 300 _); [congruence|]. unfold len in *. simpl in *. lia.
Qed.

Lemma cards_loop_shape sentences n : forall cards,
  Forall sentence_card cards ->
  Forall sentence_card (cards_loop sentences cards n).
Proof.
  induction sentences as [|s rest IH]; intros cards Hc; simpl; [assumption|].
  destruct (cards_of_sentence s) as [cs|] eqn:E; [|now apply IH].
  assert (Forall sentence_card (cards ++ cs))
    by (apply Forall_app; split;
        [assumption | eapply cards_of_sentence_shape; eassumption]).
  destruct (_ >=? _); [assumption | now apply IH].
Qed.

End Cards.

Lemma len_generate_flashcards_any (text : str) (n : Z) :
  len (_generate_flashcards text n) = Z.max 0 n.
Proof.
  destruct (Z.le_gt_cases 0 n) as [Hn | Hn].
  - rewrite len_generate_flashcards by assumption. lia.
  - unfold _generate_flashcards.
    pose proof (cards_loop_negative (Re.split_sentences text) n Hn) as Hle.
    set (cards := cards_loop _ _ _) in *.
    pose proof (len_nonneg cards).
    destruct (Z.ltb_spec (len cards) n); [lia|].
    unfold upto. destruct (Z.leb_spec 0 n); [lia|].
    replace (Z.to_nat (Z.of_nat (length cards) + n)) with O by lia.
    simpl. unfold len. simpl. lia.
Qed.

(** For every count, also a negative one, the generator returns
    [max(0, n)] cards. *)
Theorem generate_flashcards_count_any (text : str) (n : Z) :
  len (_generate_flashcards text n) = Z.max 0 n.
Proof. apply len_generate_flashcards_any. Qed.

(** Every card is made from a sentence (question "What is ...", at most
    180 characters, answer of 1 to 300 characters), or is the filler
    "Key point i?" for some [i] from 1 to [n]. *)
Theorem generate_flashcards_shapes (text : str) (n : Z) :
  Forall (fun c => sentence_card c
                   \/ exists i, Z.of_nat i < n /\ c = filler_card i)
    (_generate_flashcards text n).
Proof.
  unfold _generate_flashcards. apply Forall_upto.
  pose proof (cards_loop_shape (Re.split_sentences text) n []
                ltac:(constructor)) as Hs.
  set (cards := cards_loop _ _ _) in *.
  assert (Hl : Forall (fun c => sentence_card c
                 \/ exists i, Z.of_nat i < n /\ c = filler_card i) cards)
    by (eapply Forall_impl; [|exact Hs]; simpl; tauto).
  destruct (_ <? _); [|assumption].
  apply Forall_app; split; [assumption|].
  apply Forall_map, Forall_forall. intros i Hi. right. exists i.
  apply in_seq in Hi. pose proof (len_nonneg cards).
  split; [lia | reflexivity].
Qed.

(** ** Flashcards: short texts *)

Section ShortTexts.
Implicit Types (s p a b : str).

Lemma count_words_boundary s :
  (count_words s false <= count_words s true <= count_words s false + 1)%nat.
Proof. destruct s as [|c r]; simpl; [lia|]. destruct (isspace c); lia. Qed.

Lemma count_words_app_r p b bd :
  (count_words p bd <= count_words (p ++ b) bd)%nat.
Proof.
  revert bd. induction p as [|c p IH]; intros bd; simpl; [lia|].
  destruct (isspace c); [apply IH|].
  specialize (IH false). lia.
Qed.

Lemma count_words_app_l a p :
  (count_words p true <= count_words (a ++ p) true)%nat.
Proof.
  induction a as [|c a IH]; simpl; [lia|].
  destruct (isspace c); [assumption|].
  pose proof (count_words_boundary (a ++ p)). lia.
Qed.

(** A part of a text has no more words than the text. *)
Lemma word_count_part a p b : word_count p <= word_count (a ++ p ++ b).
Proof.
  unfold word_count.
  pose proof (count_words_app_l a (p ++ b)).
  pose proof (count_words_app_r p b true). lia.
Qed.

(** Every piece of the sentence split is a part of the text. *)
Lemma split_sentences_go_parts s : forall cur stop insep,
  Forall (fun p => exists a b, rev cur ++ s = a ++ p ++ b)
    (Re.split_sentences_go s cur stop insep).
Proof.
  induction s as [|c r IH]; intros cur stop insep; simpl.
  - constructor; [|constructor]. exists [], []. now rewrite app_nil_r.
  - assert (Hskip : forall st ins,
              Forall (fun p => exists a b, rev cur ++ c :: r = a ++ p ++ b)
                (Re.split_sentences_go r [] st ins)).
    { intros st ins. eapply Forall_impl; [|apply (IH [] st ins)]. simpl.
      intros p (a & b & ->). exists (rev cur ++ c :: a), b.
      now rewrite <- app_assoc. }
    assert (Hkeep : forall cur' st ins, rev cur' ++ r = rev cur ++ c :: r ->
              Forall (fun p => exists a b, rev cur ++ c :: r = a ++ p ++ b)
                (Re.split_sentences_go r cur' st ins)).
    { intros cur' st ins E. rewrite <- E. apply IH. }
    destruct insep.
    + destruct (isspace c); [apply Hskip|].
      eapply Forall_impl; [|apply (IH [c] (Re.is_stop c) false)]. simpl.
      intros p (a & b & E). exists (rev cur ++ a), b.
      rewrite <- app_assoc. now f_equal.
    + destruct (isspace c && stop).
      * constructor; [|apply Hskip]. now exists [], (c :: r).
      * apply Hkeep. simpl. now rewrite <- app_assoc.
Qed.

Lemma split_sentences_words text :
  Forall (fun p => len (split p) <= word_count text)
    (Re.split_sentences text).
Proof.
  eapply Forall_impl; [|apply (split_sentences_go_parts text [] false false)].
  simpl. intros p (a & b & ->). rewrite len_split. apply word_count_part.
Qed.

Lemma cards_of_sentence_short s :
  len (split s) < 6 -> cards_of_sentence s = Some [].
Proof.
  intros H. unfold cards_of_sentence. rewrite Z.geb_leb.
  destruct (Z.leb_spec 6 (len (split s))); [lia | reflexivity].
Qed.

Lemma cards_loop_none sentences n :
  Forall (fun s => cards_of_sentence s = Some []) sentences ->
  cards_loop sentences [] n = [].
Proof.
  induction 1 as [|s rest Hs _ IH]; [reflexivity|]. simpl. rewrite Hs. simpl.
  now destruct (_ >=? _).
Qed.

End ShortTexts.

(** A text of fewer than six words, the empty text included, gives no
    card of its own: the result is the [n] fillers "Key point 1?" to
    "Key point n?". *)
Theorem generate_flashcards_short_text (text : str) (n : Z) :
  word_count text < 6 ->
  0 <= n ->
  _generate_flashcards text n = map filler_card (seq 0 (Z.to_nat n)).
Proof.
  intros Hw Hn.
  assert (Hnone : cards_loop (Re.split_sentences text) [] n = []).
  { apply cards_loop_none.
    eapply Forall_impl; [|apply split_sentences_words]. simpl.
    intros s Hs. apply cards_of_sentence_short. lia. }
  destruct (Z.eq_dec n 0) as [-> | Hpos].
  - unfold _generate_flashcards. rewrite Hnone. reflexivity.
  - pose proof (generate_flashcards_padding text n) as Hp.
    simpl in Hp. rewrite Hnone in Hp.
    rewrite Hp by (unfold len; simpl; lia).
    simpl. unfold len. simpl. now rewrite Z.sub_0_r.
Qed.

Lemma generate_flashcards_short_text_witness :
  _generate_flashcards $"Water is wet." 2 = map filler_card (seq 0 2).
Proof.
  apply (generate_flashcards_short_text $"Water is wet." 2);
    [vm_compute; reflexivity | lia].
Defined.

(** ** The flashcards endpoint: every request *)

(** The endpoint creates one flashcard record per card, in the order of
    the cards, and reports the number of cards, which is the count of the
    request (8 when it is absent or 0) and 0 when that count is negative:
    a negative count creates nothing. *)
Theorem flashcards_one_record_per_card (payload : GenerateIn) (st : Store) :
  let r := fst (flashcards payload st) in
  fr_count r = Z.max 0 (int_or (g_count payload) 8)
  /\ len (fr_cards r) = fr_count r
  /\ len (fr_ids r) = fr_count r
  /\ snd (flashcards payload st)
     = st ++ map (flashcard_doc (g_resource_id payload)) (fr_cards r).
Proof.
  unfold flashcards, bind, ret.
  set (cards := _generate_flashcards _ _).
  pose proof (len_generate_flashcards_any
                (str_or (g_text payload) $"") (int_or (g_count payload) 8))
    as Hlen.
  fold cards in Hlen.
  destruct (create_cards_spec (g_resource_id payload) cards [] st)
    as [Hs Hl].
  destruct (create_cards _ cards [] st) as [ids st'] eqn:E. simpl in *.
  repeat split; try assumption. unfold len. rewrite Hl. reflexivity.
Qed.

(** ** The task extractor: what a task holds *)

Section TaskFields.
Context {W : World}.

Lemma Forall2_right {A B} (R : A -> B -> Prop) l1 l2 :
  Forall2 R l1 l2 -> Forall (fun b => exists a, In a l1 /\ R a b) l2.
Proof.
  induction 1 as [|a b l1 l2 Hab _ IH]; constructor.
  - exists a. split; [now left | assumption].
  - eapply Forall_impl; [|exact IH]. simpl.
    intros y (x & Hx & Hxy). exists x. split; [now right | assumption].
Qed.

(** Each task comes from an action line of the text. *)
Lemma extract_tasks_origin text k :
  Forall (fun t => exists line j,
            In line (splitlines text) /\ action_line line = true
            /\ t = fst (task_of_line (strip line) j))
    (fst (_extract_tasks_and_deadlines text k)).
Proof.
  unfold _extract_tasks_and_deadlines.
  eapply Forall_impl;
    [|apply (Forall2_right _ _ _ (extract_loop_tasks (splitlines text) k))].
  simpl. intros t (line & Hin & j & Ht).
  apply filter_In in Hin as [Hin Ha]. now exists line, j.
Qed.

Lemma action_line_strip line : action_line line = true -> strip line <> [].
Proof.
  unfold action_line. intros H. apply andb_prop in H as [Hb _].
  apply truthy_nonempty. rewrite truthy_strip. exact Hb.
Qed.

Lemma parse_due_some l j d :
  fst (parse_due l j) = Some d ->
  exists us, d = Naive us
             /\ dateparser_parse l (Naive (now j)) = Returns (Naive us)
             /\ now (S j) - one_day <= us.
Proof.
  unfold parse_due.
  destruct (dateparser_parse l (Naive (now j))) as [|due]; [discriminate|].
  destruct due as [us | us]; simpl; [|discriminate].
  destruct (Z.ltb_spec us (now (S j) - one_day)); [discriminate|].
  intros [= <-]. now exists us.
Qed.

End TaskFields.

(** Every extracted task has a title of 1 to 120 characters, the status
    "todo" and the priority "high" or "medium". *)
Theorem extract_tasks_fields (W : World) (text : str) (k : nat) :
  Forall (fun t => 1 <= len (t_title t) <= 120
                   /\ t_status t = $"todo"
                   /\ (t_priority t = $"high" \/ t_priority t = $"medium"))
    (fst (_extract_tasks_and_deadlines text k)).
Proof.
  eapply Forall_impl; [|apply extract_tasks_origin]. simpl.
  intros t (line & j & _ & Ha & ->).
  destruct (task_of_line_fields (strip line) j) as (-> & -> & -> & _).
  apply action_line_strip in Ha.
  split; [|split; [reflexivity | destruct (any_in _ _); auto]].
  pose proof (len_upto_le 120 (strip line) ltac:(lia)).
  pose proof (upto_pos_nonempty 120 _ ltac:(lia) Ha) as Hne.
  destruct (upto 120 (strip line)); [congruence|].
  unfold len in *. simpl in *. lia.
Qed.

(** A due date is kept only when the parser returned it for the line, as
    a naive date, not more than one day before the clock's reading: no
    task carries an aware date or a date older than a day. *)
Theorem extract_tasks_kept_dates (W : World) (text : str) (k : nat) :
  Forall (fun t => forall d, t_due_date t = Some d ->
            exists line j us,
              In line (splitlines text)
              /\ dateparser_parse (strip line) (Naive (now j))
                 = Returns (Naive us)
              /\ d = Naive us
              /\ now (S j) - one_day <= us)
    (fst (_extract_tasks_and_deadlines text k)).
Proof.
  eapply Forall_impl; [|apply extract_tasks_origin]. simpl.
  intros t (line & j & Hin & _ & ->) d.
  destruct (task_of_line_fields (strip line) j) as (_ & _ & _ & ->).
  intros Hd. apply parse_due_some in Hd as (us & -> & Hp & Hfresh).
  now exists line, j, us.
Qed.

(** ** The study plan: the day of each objective *)

Section PlanDays.
Variables start days per_day : Z.
Hypothesis per_day_pos : 1 <= per_day.

Lemma div_succ (i : Z) :
  0 <= i ->
  (if (i + 1) mod per_day =? 0 then i / per_day + 1 else i / per_day)
  = (i + 1) / per_day.
Proof.
  intros Hi.
  pose proof (Z.div_mod i per_day ltac:(lia)) as Hdm.
  pose proof (Z.mod_pos_bound i per_day ltac:(lia)) as Hr.
  destruct (Z.eq_dec (i mod per_day + 1) per_day) as [Hfull | Hpart].
  - assert (Hi1 : i + 1 = (i / per_day + 1) * per_day) by lia.
    rewrite Hi1, Z.mod_mul, Z.div_mul by lia. reflexivity.
  - assert (Hmod : (i + 1) mod per_day = i mod per_day + 1)
      by (symmetry; apply (Z.mod_unique_pos _ _ (i / per_day)); lia).
    assert (Hdiv : (i + 1) / per_day = i / per_day)
      by (symmetry; apply (Z.div_unique_pos _ _ _ (i mod per_day + 1)); lia).
    rewrite Hmod, Hdiv.
    destruct (Z.eqb_spec (i mod per_day + 1) 0); [lia | reflexivity].
Qed.

(** The day pointer is the number of full blocks of [per_day] objectives
    handled so far. *)
Lemma plan_loop_nth objectives : forall i j obj,
  0 <= i ->
  nth_error objectives j = Some obj ->
  nth_error (plan_loop start days per_day objectives i (i / per_day) []) j
  = Some {| pt_title := obj;
            pt_due_date :=
              start + Z.min ((i + Z.of_nat j) / per_day) (days - 1);
            pt_status := $"todo";
            pt_priority := $"medium" |}.
Proof.
  induction objectives as [|o rest IH]; intros i j obj Hi Hj.
  - destruct j; discriminate.
  - cbn [plan_loop]. rewrite plan_loop_app, div_succ by assumption.
    destruct j as [|j]; simpl in Hj.
    + injection Hj as ->. simpl. now rewrite Z.add_0_r.
    + simpl nth_error. rewrite (IH (i + 1) j obj) by (assumption || lia).
      rewrite Nat2Z.inj_succ.
      replace (i + 1 + Z.of_nat j) with (i + Z.succ (Z.of_nat j)) by lia.
      reflexivity.
Qed.

End PlanDays.

Section PlanPast.
Variables start days per_day : Z.


End PlanPast.

Lemma per_day_of_pos payload : 1 <= per_day_of payload.
Proof. unfold per_day_of. lia. Qed.

Lemma plan_task_nth (payload : PlanIn) (today : Z) (st : Store)
  (j : nat) (obj : str) :
  nth_error (effective_objectives payload) j = Some obj ->
  nth_error (pr_tasks (fst (plan payload today st))) j
  = Some {| pt_title := obj;
            pt_due_date :=
              today + Z.min (Z.of_nat j / per_day_of payload)
                        (p_days payload - 1);
            pt_status := $"todo";
            pt_priority := $"medium" |}.
Proof.
  intros Hj. unfold plan, bind, ret. cbn [fst pr_tasks].
  fold (effective_objectives payload). fold (per_day_of payload).
  pose proof (plan_loop_nth today (p_days payload) (per_day_of payload)
                (per_day_of_pos payload) (effective_objectives payload)
                0 j obj ltac:(lia) Hj) as H.
  rewrite Z.div_0_l in H by (pose proof (per_day_of_pos payload); lia).
  exact H.
Qed.





(** When the plan has at least as many days as objectives, each objective
    has a day of its own: the objective at position [j] is due [j] days
    after today. *)
Theorem plan_one_objective_per_day (payload : PlanIn) (today : Z)
  (st : Store) (j : nat) (obj : str) :
  len (effective_objectives payload) <= p_days payload ->
  nth_error (effective_objectives payload) j = Some obj ->
  nth_error (pr_tasks (fst (plan payload today st))) j
  = Some {| pt_title := obj; pt_due_date := today + Z.of_nat j;
            pt_status := $"todo"; pt_priority := $"medium" |}.
Proof.
  intros Hlen Hj. rewrite (plan_task_nth payload today st j obj Hj).
  assert (Hjl : (j < length (effective_objectives payload))%nat)
    by (apply nth_error_Some; congruence).
  unfold len in Hlen.
  assert (Hpd : per_day_of payload = 1).
  { unfold per_day_of, int_quot, len.
    rewrite (Z.max_r 1 (p_days payload)) by lia.
    destruct (Z.eq_dec (Z.of_nat (length (effective_objectives payload)))
                (p_days payload)) as [-> | Hne].
    - rewrite Z.div_same by lia. reflexivity.
    - rewrite Z.div_small by lia. reflexivity. }
  rewrite Hpd, Z.div_1_r. do 2 f_equal. lia.
Qed.

Lemma plan_one_objective_per_day_witness :
  nth_error
    (pr_tasks (fst (plan {| p_title := $"Week"; p_objectives := [];
                            p_days := 7 |} 100 []))) 2
  = Some {| pt_title := $"Revise key formulas";
            pt_due_date := 100 + Z.of_nat 2;
            pt_status := $"todo"; pt_priority := $"medium" |}.
Proof.
  apply (plan_one_objective_per_day
           {| p_title := $"Week"; p_objectives := []; p_days := 7 |}
           100 [] 2 $"Revise key formulas");
    [vm_compute; discriminate | reflexivity].
Defined.

(** When the number of objectives is [q] times the number of days, every
    day of the plan gets [q] objectives: the objective at position [j] is
    due [floor(j / q)] days after today. *)
Theorem plan_equal_blocks (payload : PlanIn) (today : Z) (st : Store)
  (q : Z) (j : nat) (obj : str) :
  1 <= p_days payload ->
  1 <= q ->
  len (effective_objectives payload) = q * p_days payload ->
  nth_error (effective_objectives payload) j = Some obj ->
  nth_error (pr_tasks (fst (plan payload today st))) j
  = Some {| pt_title := obj; pt_due_date := today + Z.of_nat j / q;
            pt_status := $"todo"; pt_priority := $"medium" |}.
Proof.
  intros Hd Hq Hlen Hj. rewrite (plan_task_nth payload today st j obj Hj).
  assert (Hjl : (j < length (effective_objectives payload))%nat)
    by (apply nth_error_Some; congruence).
  assert (Hpd : per_day_of payload = q).
  { unfold per_day_of, int_quot. rewrite Hlen.
    rewrite (Z.max_r 1 (p_days payload)), Z.div_mul by lia. lia. }
  rewrite Hpd. unfold len in Hlen.
  assert (Z.of_nat j / q < p_days payload)
    by (apply Z.div_lt_upper_bound; lia).
  do 2 f_equal. lia.
Qed.

Lemma plan_equal_blocks_witness :
  nth_error
    (pr_tasks (fst (plan {| p_title := $"Week";
                            p_objectives := [$"a"; $"b"; $"c"; $"d"];
                            p_days := 2 |} 100 []))) 3
  = Some {| pt_title := $"d"; pt_due_date := 100 + Z.of_nat 3 / 2;
            pt_status := $"todo"; pt_priority := $"medium" |}.
Proof.
  apply (plan_equal_blocks
           {| p_title := $"Week"; p_objectives := [$"a"; $"b"; $"c"; $"d"];
              p_days := 2 |} 100 [] 2 3 $"d");
    [simpl; lia | lia | reflexivity | reflexivity].
Defined.

(** ** The doubt explainer: the context step *)

(** A context that is not empty adds one step in front of the four steps
    of the outline: the prefix "Understand the context: " and the first
    200 characters of the context, 224 characters at most.  An empty
    context adds nothing, like an absent one. *)
Theorem doubts_context_step (question : str) (context : option str)
  (st : Store) :
  let steps :=
    dr_steps (fst (doubts {| q_question := question;
                             q_context := context |} st)) in
  let outline :=
    dr_steps (fst (doubts {| q_question := question;
                             q_context := None |} st)) in
  (forall c, context = Some c -> c <> [] ->
     steps = (context_prefix ++ upto 200 c) :: outline
     /\ len (context_prefix ++ upto 200 c) <= 224)
  /\ (context = Some [] -> steps = outline).
Proof.
  intros steps outline. subst steps outline. split.
  - intros c -> Hc. split.
    + destruct c; [congruence | reflexivity].
    + rewrite len_app. pose proof (len_upto_le 200 c ltac:(lia)).
      change (len context_prefix) with 24. lia.
  - now intros ->.
Qed.

Lemma doubts_context_step_witness :
  dr_steps (fst (doubts {| q_question := $"Why?";
                           q_context := Some $"Ohm's law" |} []))
  = (context_prefix ++ upto 200 $"Ohm's law")
    :: dr_steps (fst (doubts {| q_question := $"Why?";
                                q_context := None |} []))
  /\ len (context_prefix ++ upto 200 $"Ohm's law") <= 224.
Proof.
  destruct (doubts_context_step $"Why?" (Some $"Ohm's law") []) as [H _].
  apply (H $"Ohm's law"); [reflexivity | discriminate].
Defined.

(** ** PDF text and uploads *)

Section Uploads.
Context {P : PdfLib}.
Implicit Types (s : str).

Lemma dropwhile_suffix p s : exists pre, s = pre ++ dropwhile p s.
Proof.
  induction s as [|c r [pre IH]]; [now exists []|]. simpl.
  destruct (p c); [|now exists []].
  exists (c :: pre). simpl. now f_equal.
Qed.

(** What is left after stripping is empty, or begins and ends with a
    character that is not whitespace. *)
Lemma strip_nil_or_solid s : strip s = [] \/ solid (strip s) = true.
Proof.
  unfold strip, strip_by, rstrip_by, lstrip_by.
  set (d := dropwhile isspace s).
  destruct (dropwhile isspace (rev d)) as [|c1 r1] eqn:E; [now left|].
  right.
  pose proof (dropwhile_keeps _ _ _ _ E) as Hc1.
  destruct (dropwhile_suffix isspace (rev d)) as [pre Hpre].
  rewrite E in Hpre.
  apply (f_equal (@rev ascii)) in Hpre.
  rewrite rev_involutive, rev_app_distr in Hpre.
  destruct (rev (c1 :: r1)) as [|c0 r0] eqn:E0.
  - apply (f_equal (@length ascii)) in E0. rewrite length_rev in E0.
    discriminate.
  - assert (Hc0 : isspace c0 = false).
    { subst d. simpl in Hpre. eapply dropwhile_keeps. exact Hpre. }
    assert (Hlast : last (c0 :: r0) c0 = c1).
    { rewrite <- last_rev_cons, <- E0, rev_involutive. reflexivity. }
    unfold solid. rewrite Hlast, Hc0, Hc1. reflexivity.
Qed.

Lemma strip_idem s : strip (strip s) = strip s.
Proof.
  destruct (strip_nil_or_solid s) as [-> | H]; [reflexivity|].
  now apply strip_solid.
Qed.

Lemma pages_loop_spec pages : forall text_parts,
  pages_loop pages text_parts = text_parts ++ flat_map page_text pages.
Proof.
  induction pages as [|page rest IH]; intros parts; simpl.
  - now rewrite app_nil_r.
  - destruct page as [|t]; simpl; [apply IH|].
    now rewrite IH, <- app_assoc.
Qed.

Lemma endswith_spec suffix s :
  endswith suffix s = true <-> exists a, s = a ++ suffix.
Proof.
  unfold endswith. rewrite startswith_spec. split.
  - intros [b Hb]. exists (rev b).
    apply (f_equal (@rev ascii)) in Hb.
    now rewrite rev_involutive, rev_app_distr, rev_involutive in Hb.
  - intros [a ->]. exists (rev a). apply rev_app_distr.
Qed.

Lemma lower_char_idem c : lower_char (lower_char c) = lower_char c.
Proof. destruct c as [[] [] [] [] [] [] [] []]; reflexivity. Qed.

Lemma lower_idem s : lower (lower s) = lower s.
Proof.
  unfold lower. rewrite map_map. apply map_ext. apply lower_char_idem.
Qed.

(** A name that ends in ".docx", in any case, ends neither in ".pdf" nor
    in an image extension. *)
Lemma docx_is_neither filename :
  endswith $".docx" (lower filename) = true ->
  endswith $".pdf" (lower filename) = false
  /\ existsb (fun ext => endswith ext (lower filename)) image_extensions
     = false.
Proof.
  intros H. apply endswith_spec in H as [a ->].
  unfold endswith. rewrite rev_app_distr. split; reflexivity.
Qed.

End Uploads.

(** The text taken from a PDF is the text of the pages that can be read,
    in order, joined by line feeds and stripped: it never begins or ends
    with whitespace, a page that raises leaves no trace, and a file that
    cannot be opened gives the empty text. *)
Theorem extract_text_from_pdf_result (P : PdfLib) (data : list Byte.byte) :
  strip (_extract_text_from_pdf data) = _extract_text_from_pdf data
  /\ (PdfReader data = Raises -> _extract_text_from_pdf data = $"")
  /\ (forall pages, PdfReader data = Returns pages ->
        _extract_text_from_pdf data
        = strip (join newline (flat_map page_text pages))).
Proof.
  unfold _extract_text_from_pdf. split; [|split].
  - destruct (PdfReader data); [reflexivity | apply strip_idem].
  - now intros ->.
  - intros pages ->. now rewrite pages_loop_spec.
Qed.

Lemma extract_text_from_pdf_result_witness :
  @_extract_text_from_pdf two_pages [] = $"Ohm's law".
Proof.
  destruct (extract_text_from_pdf_result two_pages []) as (_ & _ & H).
  rewrite (H _ eq_refl). reflexivity.
Defined.

(** An upload is filed as "pdf", "image" or "binary", never as "unknown";
    only a PDF can bring text: for the other two the stored text is empty
    and the number of characters reported is 0.  One record is created,
    with the file name as source and, when no title is given, as title. *)
Theorem upload_resource_types (P : PdfLib) (filename : str)
  (data : list Byte.byte) (title : option str) (st : Db.St) :
  let r := fst (upload_resource filename data title st) in
  exists doc,
    snd (upload_resource filename data title st)
    = st ++ [($"studentresource", Db.DocStudentResource doc)]
    /\ sr_type doc = ur_detected_type r
    /\ (ur_detected_type r = $"pdf" \/ ur_detected_type r = $"image"
        \/ ur_detected_type r = $"binary")
    /\ (ur_detected_type r <> $"pdf" ->
        sr_content_text doc = Some $"" /\ ur_chars r = 0)
    /\ (exists text, sr_content_text doc = Some text /\ ur_chars r = len text)
    /\ sr_source_name doc = Some filename
    /\ (title = None \/ title = Some [] -> sr_title doc = filename).
Proof.
  unfold upload_resource, detect.
  destruct (endswith $".pdf" (lower filename));
    [|destruct (existsb _ image_extensions)];
    cbn [fst snd Db.create_document];
    eexists; (split; [reflexivity|]); cbn;
    (repeat split; try (intros [-> | ->]; reflexivity);
     try congruence; eauto 6).
Qed.

Lemma upload_resource_types_witness :
  exists doc,
    snd (@upload_resource two_pages $"notes.png" [] None [])
    = [] ++ [($"studentresource", Db.DocStudentResource doc)]
    /\ sr_content_text doc = Some $""
    /\ ur_chars (fst (@upload_resource two_pages $"notes.png" [] None [])) = 0
    /\ sr_title doc = $"notes.png".
Proof.
  destruct (upload_resource_types two_pages $"notes.png" [] None [])
    as (doc & Hst & _ & _ & Hnopdf & _ & _ & Htitle).
  exists doc. split; [exact Hst|].
  destruct Hnopdf as [Hc Hn]; [vm_compute; discriminate|].
  split; [exact Hc|]. split; [exact Hn|]. apply Htitle. now left.
Defined.

(** A file whose name ends in ".docx", in any case of the letters, is
    filed as "binary" with the empty text and 0 characters, and the PDF
    reader is not asked. *)
Theorem upload_docx_is_binary (P : PdfLib) (filename : str)
  (data : list Byte.byte) (title : option str) (st : Db.St) :
  endswith $".docx" (lower filename) = true ->
  fst (upload_resource filename data title st)
  = {| ur_resource_id := str_of_nat (length st);
       ur_detected_type := $"binary"; ur_chars := 0 |}
  /\ snd (upload_resource filename data title st)
     = st ++ [($"studentresource",
               Db.DocStudentResource
                 {| sr_title := str_or title filename;
                    sr_type := $"binary";
                    sr_source_name := Some filename;
                    sr_content_text := Some $"";
                    sr_metadata := [($"size", len data)] |})].
Proof.
  intros H. apply docx_is_neither in H as [Hpdf Himg].
  unfold upload_resource, detect. rewrite Hpdf, Himg. split; reflexivity.
Qed.

Lemma upload_docx_is_binary_witness :
  fst (@upload_resource two_pages $"Essay.DOCX" [] None [])
  = {| ur_resource_id := str_of_nat 0;
       ur_detected_type := $"binary"; ur_chars := 0 |}.
Proof.
  apply (upload_docx_is_binary two_pages $"Essay.DOCX" [] None []).
  reflexivity.
Defined.

(** The extension is read without regard to case: a file and the same
    file under the lower-case form of its name are filed under the same
    type, with the same number of characters of text. *)
Theorem upload_extension_case (P : PdfLib) (filename : str)
  (data : list Byte.byte) (title : option str) (st : Db.St) :
  let r := fst (upload_resource filename data title st) in
  let r' := fst (upload_resource (lower filename) data title st) in
  ur_detected_type r = ur_detected_type r' /\ ur_chars r = ur_chars r'.
Proof.
  unfold upload_resource.
  assert (H : detect filename data = detect (lower filename) data)
    by (unfold detect; now rewrite lower_idem).
  rewrite <- H. destruct (detect filename data). split; reflexivity.
Qed.

(** ** The summarize endpoint *)

Section Summarize.
Context {R : Reader}.

Lemma scan_items_found pre it post rid text :
  Forall (fun x => it_id x <> rid) pre -> it_id it = rid ->
  scan_items (pre ++ it :: post) rid text = it_content_text it.
Proof.
  intros Hpre Hit. induction Hpre as [|x pre Hx _ IH]; simpl.
  - destruct (eqb (it_id it) rid) eqn:E; [reflexivity|].
    apply eqb_true_iff in Hit. congruence.
  - destruct (eqb (it_id x) rid) eqn:E; [|exact IH].
    apply eqb_true_iff in E. contradiction.
Qed.



Lemma summarize_result payload st :
  sz_result (fst (summarize payload st))
  = _simple_summarize (resolve_text payload st) 5.
Proof. reflexivity. Qed.

End Summarize.

(** When the request brings a text that is not empty, the summary is that
    of this text: the database is not read and the resource identifier
    plays no part.  One summary record is created, with the key points and
    the reading time of the response. *)
Theorem summarize_given_text (R : Reader) (payload : GenerateIn)
  (text : str) (st : Db.St) :
  g_text payload = Some text -> text <> [] ->
  let result := _simple_summarize text 5 in
  sz_result (fst (summarize payload st)) = result
  /\ snd (summarize payload st)
     = st ++ [($"summary",
               Db.DocSummary
                 {| sm_title := $"Summary";
                    sm_resource_id := g_resource_id payload;
                    sm_content := content result;
                    sm_key_points := key_points result;
                    sm_reading_time_min := Some (reading_time_min result) |})].
Proof.
  intros Ht Hne.
  assert (Hres : resolve_text payload st = text).
  { unfold resolve_text. rewrite Ht.
    destruct text as [|c t]; [congruence|].
    destruct (g_resource_id payload); reflexivity. }
  unfold summarize. rewrite Hres. split; reflexivity.
Qed.

Lemma summarize_given_text_witness :
  sz_result
    (fst (@summarize empty_reader
            {| g_resource_id := Some $"7"; g_text := Some $"The key result.";
               g_count := None |} []))
  = _simple_summarize $"The key result." 5.
Proof.
  apply (summarize_given_text empty_reader
           {| g_resource_id := Some $"7"; g_text := Some $"The key result.";
              g_count := None |} $"The key result." []);
    [reflexivity | discriminate].
Defined.

(** Without a text of its own, a request that names a resource gets the
    summary of the first stored resource with that identifier, when the
    query for a null identifier finds nothing. *)
Theorem summarize_stored_resource (R : Reader) (payload : GenerateIn)
  (rid : str) (st : Db.St) (pre post : list Item) (it : Item) :
  truthy_opt (g_text payload) = false ->
  g_resource_id payload = Some rid -> rid <> [] ->
  get_documents $"studentresource" IdIsNone st = [] ->
  get_documents $"studentresource" Everything st = pre ++ it :: post ->
  Forall (fun x => it_id x <> rid) pre -> it_id it = rid ->
  sz_result (fst (summarize payload st))
  = _simple_summarize (str_or (it_content_text it) $"") 5.
Proof.
  intros Ht Hrid Hne Hnone Hall Hpre Hit.
  rewrite summarize_result. f_equal.
  unfold resolve_text. rewrite Hrid, Ht, Hnone, Hall.
  destruct rid; [congruence|]. cbn [negb truthy andb].
  now rewrite scan_items_found.
Qed.

Lemma summarize_stored_resource_witness :
  sz_result
    (fst (@summarize two_resources
            {| g_resource_id := Some $"8"; g_text := None;
               g_count := None |} []))
  = _simple_summarize (str_or (Some $"The key is eight.") $"") 5.
Proof.
  apply (summarize_stored_resource two_resources
           {| g_resource_id := Some $"8"; g_text := None; g_count := None |}
           $"8" []
           [ {| it_id := $"7"; it_content_text := Some $"Seven." |} ] []
           {| it_id := $"8"; it_content_text := Some $"The key is eight." |});
    try reflexivity; try discriminate.
  constructor; [discriminate | constructor].
Defined.



(** ** The extract-tasks endpoint *)

Section ExtractEndpoint.
Context {I : IsoParser}.

Lemma create_tasks_cons t rest created st :
  create_tasks (t :: rest) created st
  = match reparse t with
    | Raises => (Raises, st)
    | Returns due =>
        create_tasks rest
          (created ++ [ {| ct_task := t; ct_id := str_of_nat (length st) |} ])
          (st ++ [study_record t due])
    end.
Proof.
  cbn [create_tasks]. unfold reparse.
  destruct (t_due_date t) as [d|]; [destruct (parse_iso d)|]; reflexivity.
Qed.

(** The loop up to the first date that does not parse: a record for each
    task before it, and nothing after. *)
Lemma create_tasks_stops pre : forall t post created st,
  Forall (fun x => reparse x <> Raises) pre ->
  reparse t = Raises ->
  exists dues : list (option datetime),
    length dues = length pre
    /\ Forall2 (fun x due => reparse x = Returns due) pre dues
    /\ create_tasks (pre ++ t :: post) created st
       = (Raises, st ++ map (fun xd => study_record (fst xd) (snd xd))
                          (combine pre dues)).
Proof.
  induction pre as [|x pre IH]; intros t post created st Hpre Ht.
  - exists []. simpl app. rewrite create_tasks_cons, Ht, app_nil_r.
    repeat split. constructor.
  - inversion Hpre as [|? ? Hx Hpre']; subst.
    simpl app. rewrite create_tasks_cons.
    destruct (reparse x) as [|due] eqn:E; [congruence|].
    destruct (IH t post
                (created ++ [ {| ct_task := x;
                                 ct_id := str_of_nat (length st) |} ])
                (st ++ [study_record x due]) Hpre' Ht)
      as (dues & Hlen & Hdues & Hrun).
    exists (due :: dues). rewrite Hrun, <- app_assoc. simpl.
    repeat split; [now f_equal | now constructor].
Qed.

(** The loop when every date parses: a record for each task. *)
Lemma create_tasks_all tasks : forall created st,
  Forall (fun x => reparse x <> Raises) tasks ->
  exists dues cs,
    Forall2 (fun x due => reparse x = Returns due) tasks dues
    /\ map ct_task cs = tasks
    /\ create_tasks tasks created st
       = (Returns (created ++ cs),
          st ++ map (fun xd => study_record (fst xd) (snd xd))
                  (combine tasks dues)).
Proof.
  induction tasks as [|x rest IH]; intros created st Hall.
  - exists [], []. simpl. rewrite !app_nil_r. repeat split. constructor.
  - inversion Hall as [|? ? Hx Hrest]; subst.
    rewrite create_tasks_cons.
    destruct (reparse x) as [|due] eqn:E; [congruence|].
    destruct (IH (created ++ [ {| ct_task := x;
                                  ct_id := str_of_nat (length st) |} ])
                 (st ++ [study_record x due]) Hrest)
      as (dues & cs & Hdues & Hcs & Hrun).
    exists (due :: dues),
      ({| ct_task := x; ct_id := str_of_nat (length st) |} :: cs).
    rewrite Hrun, <- !app_assoc. simpl.
    repeat split; [now constructor | now f_equal].
Qed.

End ExtractEndpoint.

(** When the strict parser reads back every date the extractor kept, the
    endpoint answers with the extracted tasks, in order, and has created
    one record per task in the collection "studytask": same title and
    priority, source "extracted", status "todo", no course, and the date
    as the strict parser read it. *)
Theorem extract_tasks_one_record_per_task (W : World) (I : IsoParser)
  (payload : GenerateIn) (k : nat) (st : Db.St) :
  let tasks :=
    fst (_extract_tasks_and_deadlines (str_or (g_text payload) $"") k) in
  Forall (fun t => reparse t <> Raises) tasks ->
  exists dues cs,
    Forall2 (fun t due => reparse t = Returns due) tasks dues
    /\ fst (fst (extract_tasks payload k st)) = Returns cs
    /\ map ct_task cs = tasks
    /\ snd (fst (extract_tasks payload k st))
       = st ++ map (fun td => study_record (fst td) (snd td))
                 (combine tasks dues).
Proof.
  intros tasks Hall. unfold extract_tasks. fold tasks.
  destruct (_extract_tasks_and_deadlines _ k) as [ts k'] eqn:E.
  simpl in tasks. subst tasks.
  destruct (create_tasks_all ts [] st Hall) as (dues & cs & Hd & Hcs & Hrun).
  exists dues, cs. cbn [fst snd]. rewrite Hrun. now repeat split.
Qed.

Lemma extract_tasks_one_record_per_task_witness :
  exists dues cs,
    Forall2 (fun t due => @reparse exact_iso t = Returns due)
      (fst (@_extract_tasks_and_deadlines daily_world
              (str_or (Some $"read chapter 2") $"") 0)) dues
    /\ fst (fst (@extract_tasks daily_world exact_iso
                   {| g_resource_id := None; g_text := Some $"read chapter 2";
                      g_count := None |} 0 [])) = Returns cs
    /\ map ct_task cs
       = fst (@_extract_tasks_and_deadlines daily_world
                (str_or (Some $"read chapter 2") $"") 0)
    /\ snd (fst (@extract_tasks daily_world exact_iso
                   {| g_resource_id := None; g_text := Some $"read chapter 2";
                      g_count := None |} 0 []))
       = [] ++ map (fun td => study_record (fst td) (snd td))
                 (combine
                    (fst (@_extract_tasks_and_deadlines daily_world
                            (str_or (Some $"read chapter 2") $"") 0)) dues).
Proof.
  apply (extract_tasks_one_record_per_task daily_world exact_iso
           {| g_resource_id := None; g_text := Some $"read chapter 2";
              g_count := None |} 0 []).
  repeat constructor; discriminate.
Defined.

(** Nothing is rolled back: when the strict parser raises on the date of
    an extracted task, the request fails, and the records created for the
    tasks before it, and only those, stay in the store. *)
Theorem extract_tasks_no_rollback (W : World) (I : IsoParser)
  (payload : GenerateIn) (k : nat) (st : Db.St)
  (pre post : list TaskDict) (t : TaskDict) :
  fst (_extract_tasks_and_deadlines (str_or (g_text payload) $"") k)
  = pre ++ t :: post ->
  Forall (fun x => reparse x <> Raises) pre ->
  reparse t = Raises ->
  exists dues,
    Forall2 (fun x due => reparse x = Returns due) pre dues
    /\ fst (fst (extract_tasks payload k st)) = Raises
    /\ snd (fst (extract_tasks payload k st))
       = st ++ map (fun xd => study_record (fst xd) (snd xd))
                 (combine pre dues)
    /\ length (snd (fst (extract_tasks payload k st)))
       = (length st + length pre)%nat.
Proof.
  intros Hts Hpre Ht. unfold extract_tasks.
  destruct (_extract_tasks_and_deadlines _ k) as [ts k'] eqn:E.
  simpl in Hts. subst ts.
  destruct (create_tasks_stops pre t post [] st Hpre Ht)
    as (dues & Hlen & Hd & Hrun).
  exists dues. cbn [fst snd]. rewrite Hrun. cbn [fst snd].
  repeat split; try assumption.
  rewrite length_app, length_map, length_combine. lia.
Qed.

Lemma extract_tasks_no_rollback_witness :
  exists dues : list (option datetime),
    fst (fst (@extract_tasks daily_world picky_iso
                {| g_resource_id := None;
                   g_text := Some (map chr [114; 101; 97; 100; 10;
                                            119; 114; 105; 116; 101]);
                   g_count := None |} 0 [])) = Raises
    /\ length dues = 1%nat
    /\ length (snd (fst (@extract_tasks daily_world picky_iso
                {| g_resource_id := None;
                   g_text := Some (map chr [114; 101; 97; 100; 10;
                                            119; 114; 105; 116; 101]);
                   g_count := None |} 0 []))) = 1%nat.
Proof.
  pose (payload := {| g_resource_id := None;
                      g_text := Some (map chr [114; 101; 97; 100; 10;
                                               119; 114; 105; 116; 101]);
                      g_count := None |}).
  pose (tasks := fst (@_extract_tasks_and_deadlines daily_world
                        (str_or (g_text payload) $"") 0)).
  destruct (extract_tasks_no_rollback daily_world picky_iso payload 0 []
              (firstn 1 tasks) []
              (nth 1 tasks {| t_title := []; t_due_date := None;
                              t_status := []; t_priority := [] |}))
    as (dues & Hd & Hout & _ & Hlen).
  - vm_compute. reflexivity.
  - repeat constructor. vm_compute. discriminate.
  - vm_compute. reflexivity.
  - exists dues. split; [exact Hout|]. split; [|exact Hlen].
    apply Forall2_length in Hd. now rewrite <- Hd.
Defined.

(** ** Loops with [break] as prefixes *)

Section Prefixes.

Lemma firstn_succ_cons {A} (k : Z) (a : A) (l : list A) :
  1 <= k ->
  firstn (Z.to_nat k) (a :: l) = a :: firstn (Z.to_nat (k - 1)) l.
Proof.
  intros Hk. replace (Z.to_nat k) with (S (Z.to_nat (k - 1))) by lia.
  reflexivity.
Qed.


Lemma cards_loop_prefix sentences n : forall cards,
  len cards < n ->
  cards_loop sentences cards n
  = cards
    ++ firstn (Z.to_nat (n - len cards))
         (flat_map (fun s => match cards_of_sentence s with
                             | Some cs => cs
                             | None => []
                             end) sentences).
Proof.
  induction sentences as [|s rest IH]; intros cards Hc.
  - simpl. rewrite firstn_nil. now rewrite app_nil_r.
  - cbn [cards_loop flat_map].
    destruct (cards_of_sentence s) as [cs|] eqn:E; [|now apply IH].
    pose proof (cards_of_sentence_le1 _ _ E) as Hle.
    destruct cs as [|c [|c' cs]]; [| |simpl in Hle; lia].
    + rewrite app_nil_r. simpl app. rewrite Z.geb_leb.
      destruct (Z.leb_spec n (len cards)); [lia | now apply IH].
    + cbn [app]. rewrite firstn_succ_cons by lia.
      rewrite Z.geb_leb, len_app. change (len [c]) with 1.
      destruct (Z.leb_spec n (len cards + 1)) as [Hfull | Hroom].
      * replace (n - len cards - 1) with 0 by lia. reflexivity.
      * rewrite IH by (rewrite len_app; change (len [c]) with 1; lia).
        rewrite len_app, <- app_assoc. change (len [c]) with 1.
        simpl. do 3 f_equal. lia.
Qed.

End Prefixes.



(** For [n >= 1] the cards are the first [n] cards that the sentences of
    the text give, in the order of the text, followed by as many fillers
    as are missing, numbered from 1. *)
Theorem generate_flashcards_first_found (text : str) (n : Z) :
  1 <= n ->
  let found := firstn (Z.to_nat n) (sentence_cards text) in
  _generate_flashcards text n
  = found ++ map filler_card (seq 0 (Z.to_nat n - length found)).
Proof.
  intros Hn found. unfold _generate_flashcards.
  rewrite cards_loop_prefix by (unfold len; simpl; lia).
  cbn [app]. change (len []) with 0. rewrite Z.sub_0_r.
  fold (sentence_cards text). fold found.
  assert (Hlen : (length found <= Z.to_nat n)%nat)
    by (subst found; apply firstn_le_length).
  destruct (Z.ltb_spec (len found) n) as [Hlt | Hge]; unfold len in *.
  - rewrite upto_nonneg by lia.
    replace (Z.to_nat (n - Z.of_nat (length found)))
      with (Z.to_nat n - length found)%nat by lia.
    apply firstn_all2. rewrite length_app, length_map, length_seq. lia.
  - rewrite upto_nonneg by lia.
    replace (Z.to_nat n - length found)%nat with O by lia.
    simpl. rewrite app_nil_r. apply firstn_all2. lia.
Qed.

Lemma generate_flashcards_first_found_witness :
  _generate_flashcards $"A cat is a small furry animal. Done." 2
  = firstn (Z.to_nat 2) (sentence_cards $"A cat is a small furry animal. Done.")
    ++ map filler_card
         (seq 0 (Z.to_nat 2
                 - length (firstn (Z.to_nat 2)
                             (sentence_cards
                                $"A cat is a small furry animal. Done.")))).
Proof. apply generate_flashcards_first_found. lia. Defined.

(** ** The summary record *)

(** Whatever the request and the database, the endpoint creates one
    summary record, which holds the key points and the reading time of the
    response: at most 5 key points, none empty and none over 200
    characters, and a reading time of at least 1 minute. *)
Theorem summarize_record_bounds (R : Reader) (payload : GenerateIn)
  (st : Db.St) :
  exists summ minutes,
    snd (summarize payload st) = st ++ [($"summary", Db.DocSummary summ)]
    /\ sm_key_points summ
       = key_points (sz_result (fst (summarize payload st)))
    /\ len (sm_key_points summ) <= 5
    /\ Forall (fun p => 1 <= len p <= 200) (sm_key_points summ)
    /\ sm_reading_time_min summ = Some minutes
    /\ minutes = reading_time_min (sz_result (fst (summarize payload st)))
    /\ 1 <= minutes.
Proof.
  unfold summarize. cbn [fst snd Db.create_document sz_result].
  set (text := resolve_text payload st).
  eexists. eexists. split; [reflexivity|].
  cbn [sm_key_points sm_reading_time_min].
  split; [reflexivity|]. split; [|split; [|split; [reflexivity|split]]].
  - unfold _simple_summarize. cbn [key_points]. rewrite len_map.
    apply len_upto_le. lia.
  - pose proof (simple_summarize_key_points_nonempty text 5) as Hne.
    eapply Forall_impl; [|exact Hne]. simpl. intros p [Hp Hle].
    split; [|assumption]. destruct p; [congruence|].
    unfold len. simpl. lia.
  - reflexivity.
  - unfold _simple_summarize. cbn [reading_time_min]. lia.
Qed.

(** ** A kept date *)

Lemma extract_tasks_kept_dates_witness :
  exists line j us,
    In line (splitlines $"read chapter 2 tomorrow")
    /\ @dateparser_parse fresh_world (strip line)
         (Naive (@now fresh_world j)) = Returns (Naive us)
    /\ Naive (2 * one_day) = Naive us
    /\ @now fresh_world (S j) - one_day <= us.
Proof.
  pose proof (extract_tasks_kept_dates fresh_world
                $"read chapter 2 tomorrow" 0) as H.
  remember (fst (@_extract_tasks_and_deadlines fresh_world
                   $"read chapter 2 tomorrow" 0)) as tasks eqn:E.
  vm_compute in E. subst tasks. apply Forall_inv in H.
  exact (H _ eq_refl).
Defined.
